(** * Ghost in the Cell referee: a shallow embedding of [referee.py]

    The simulation core of [src/referee.py] (classes [Bomb], [Factory],
    [Troop] and [Game]) is translated function by function.  Python
    integers are [Z]; the attribute [production_disabled], created as
    [False] and later assigned [5], is the integer it compares equal to
    ([False == 0]).  Lists of objects are lists of records, the
    [distances] dictionary is a [gmap] keyed by pairs, and the
    insertion-ordered dictionaries [battles] and [combatants], whose
    iteration order decides outcomes, are association lists.  Mutation and
    exceptions are threaded through a state-and-error monad whose state is
    the [Game] object together with the module-wide generator of
    [random]. *)

From Stdlib Require Import ZArith List Sorting.Sorted Sorting.Permutation.
From stdpp Require Import gmap list fin_maps.

Open Scope Z_scope.

(** ** Python values *)

(** Exceptions a call can end with.  [OutOfFuel] is not a Python exception:
    it marks a [while] loop of the model that used up its fuel. *)
Inductive exn : Type :=
| IndexError
| ValueError
| OutOfFuel.

(** The generator behind [random]: a sequence of raw draws and the number
    of draws already consumed. *)
Record Rng : Type := mkRng {
  raw : nat -> Z;
  cursor : nat
}.

Definition rng_next (r : Rng) : Rng :=
  {| raw := raw r; cursor := S (cursor r) |}.

Definition rng_peek (r : Rng) : Z := raw r (cursor r).

(** [random.randint(a, b)]: a value [v] with [a <= v <= b]. *)
Definition randint_value (a b : Z) (r : Rng) : Z :=
  a + rng_peek r mod (b - a + 1).

(** [seq[i]] on a Python list: negative indices count from the end, and an
    index outside [-len, len) raises [IndexError]. *)
Definition py_index (len : nat) (i : Z) : option nat :=
  if (0 <=? i) && (i <? Z.of_nat len) then Some (Z.to_nat i)
  else if (- Z.of_nat len <=? i) && (i <? 0) then Some (Z.to_nat (Z.of_nat len + i))
  else None.

(** ** Entities *)

Record Bomb : Type := mkBomb {
  bomb_owner : Z;
  bomb_source_factory : Z;
  bomb_destination_factory : Z;
  bomb_travel_time : Z
}.

Record Factory : Type := mkFactory {
  owner : Z;                 (* 0 neutral, 1 player 1, 2 player 2 *)
  cyborgs : Z;
  production : Z;
  production_disabled : Z
}.

Record Troop : Type := mkTroop {
  troop_owner : Z;
  num_cyborgs : Z;
  source_factory : Z;
  destination_factory : Z;
  travel_time : Z
}.

Record Game : Type := mkGame {
  factories : list Factory;
  troops : list Troop;
  bombs : list Bomb;
  distances : gmap (Z * Z) Z;
  random : Rng
}.

Definition set_factories (fs : list Factory) (g : Game) : Game :=
  mkGame fs (troops g) (bombs g) (distances g) (random g).
Definition set_troops (ts : list Troop) (g : Game) : Game :=
  mkGame (factories g) ts (bombs g) (distances g) (random g).
Definition set_bombs (bs : list Bomb) (g : Game) : Game :=
  mkGame (factories g) (troops g) bs (distances g) (random g).
Definition set_distances (d : gmap (Z * Z) Z) (g : Game) : Game :=
  mkGame (factories g) (troops g) (bombs g) d (random g).
Definition set_random (r : Rng) (g : Game) : Game :=
  mkGame (factories g) (troops g) (bombs g) (distances g) r.

Definition set_owner (o : Z) (f : Factory) : Factory :=
  mkFactory o (cyborgs f) (production f) (production_disabled f).
Definition set_cyborgs (c : Z) (f : Factory) : Factory :=
  mkFactory (owner f) c (production f) (production_disabled f).
Definition set_production (p : Z) (f : Factory) : Factory :=
  mkFactory (owner f) (cyborgs f) p (production_disabled f).
Definition set_production_disabled (d : Z) (f : Factory) : Factory :=
  mkFactory (owner f) (cyborgs f) (production f) d.

(** ** The monad of a method call: the game is mutated in place, and a
    raised exception leaves whatever was mutated before it. *)

Definition M (A : Type) : Type := Game -> (exn + A) * Game.

Definition ret {A} (a : A) : M A := fun g => (inr a, g).
Definition raise {A} (e : exn) : M A := fun g => (inl e, g).
Definition bind {A B} (m : M A) (k : A -> M B) : M B :=
  fun g => match m g with
           | (inr a, g') => k a g'
           | (inl e, g') => (inl e, g')
           end.
Definition get : M Game := fun g => (inr g, g).
Definition modify (f : Game -> Game) : M unit := fun g => (inr tt, f g).

Notation "x <- m ;; k" := (bind m (fun x => k))
  (at level 100, m at next level, right associativity).
Notation "m ;;; k" := (bind m (fun _ => k))
  (at level 100, right associativity).

(** [random.randint(a, b)] as an action on the generator. *)
Definition randint (a b : Z) : M Z :=
  fun g => (inr (randint_value a b (random g)), set_random (rng_next (random g)) g).

(** [self.factories[i]] read: the index of the object and the object. *)
Definition factory_at (i : Z) : M (nat * Factory) :=
  g <- get ;;
  match py_index (length (factories g)) i with
  | Some n =>
      match factories g !! n with
      | Some f => ret (n, f)
      | None => raise IndexError
      end
  | None => raise IndexError
  end.

(** An attribute assignment on the factory object stored at position [n]. *)
Definition update_factory (n : nat) (h : Factory -> Factory) : M unit :=
  modify (fun g => set_factories (alter h n (factories g)) g).

(** ** Construction *)

(** [Factory.__init__]: the production draw happens only for a non-neutral
    owner. *)
Definition Factory_init (o c : Z) : M Factory :=
  p <- (if decide (o <> 0) then randint 0 3 else ret 0) ;;
  ret (mkFactory o c p 0).

(** The [for _ in range(factory_count)] loop of [initialize_factories]. *)
Fixpoint append_neutral_factories (k : nat) : M unit :=
  match k with
  | O => ret tt
  | S k' =>
      c <- randint 15 30 ;;
      f <- Factory_init 0 c ;;
      modify (fun g => set_factories (factories g ++ [f]) g) ;;;
      append_neutral_factories k'
  end.

(** The tuple assignment
    [self.factories[i].owner, self.factories[i].production = o, randint(0, 3)]:
    the right-hand side is evaluated first, then each target in turn. *)
Definition assign_player (i o : Z) : M unit :=
  p <- randint 0 3 ;;
  nf <- factory_at i ;;
  update_factory (fst nf) (set_owner o) ;;;
  nf' <- factory_at i ;;
  update_factory (fst nf') (set_production p).

Definition initialize_factories (factory_count : Z) : M unit :=
  append_neutral_factories (Z.to_nat factory_count) ;;;
  assign_player 0 1 ;;;
  assign_player 1 2.

(** [random.sample(range(n), 2)]: two distinct positions of [range(n)],
    chosen by two draws; [ValueError] when the population is smaller than
    the sample. *)
Definition sample2 (n : Z) : M (Z * Z) :=
  if n <? 2 then raise ValueError
  else
    j1 <- randint 0 (n - 1) ;;
    j2 <- randint 0 (n - 2) ;;
    ret (j1, if j2 =? j1 then n - 1 else j2).

(** The [while] loop of [initialize_distances]; [links] is its local set. *)
Fixpoint initialize_distances_loop (fuel : nat) (factory_count link_count : Z)
    (links : gset (Z * Z)) : M (gset (Z * Z)) :=
  if Z.of_nat (size links) <? 2 * link_count then
    match fuel with
    | O => raise OutOfFuel
    | S fuel' =>
        p <- sample2 factory_count ;;
        let f1 := fst p in
        let f2 := snd p in
        if decide (((f1, f2) ∉ links) /\ ((f2, f1) ∉ links)) then
          distance <- randint 1 20 ;;
          modify (fun g => set_distances (<[(f1, f2) := distance]> (distances g)) g) ;;;
          modify (fun g => set_distances (<[(f2, f1) := distance]> (distances g)) g) ;;;
          initialize_distances_loop fuel' factory_count link_count ({[(f1, f2)]} ∪ links)
        else
          initialize_distances_loop fuel' factory_count link_count links
    end
  else ret links.

Definition initialize_distances (fuel : nat) (factory_count link_count : Z)
    : M (gset (Z * Z)) :=
  initialize_distances_loop fuel factory_count link_count ∅.

(** [Game.__init__], run on the generator [r]. *)
Definition empty_game (r : Rng) : Game := mkGame [] [] [] ∅ r.

Definition Game_init (fuel : nat) (factory_count link_count : Z) (r : Rng)
    : (exn + gset (Z * Z)) * Game :=
  (initialize_factories factory_count ;;;
   initialize_distances fuel factory_count link_count) (empty_game r).

(** ** Commands *)

(** [self.distances.get((a, b), 20)] *)
Definition distance_get (d : gmap (Z * Z) Z) (a b : Z) : Z :=
  default 20 (d !! (a, b)).

Definition send_troop (o n src dst : Z) : M unit :=
  nf <- factory_at src ;;
  if decide (owner (snd nf) <> o) then raise ValueError
  else
    g <- get ;;
    let t := distance_get (distances g) src dst in
    modify (fun g => set_troops (troops g ++ [mkTroop o n src dst t]) g) ;;;
    nf' <- factory_at src ;;
    update_factory (fst nf') (fun f => set_cyborgs (cyborgs f - n) f).

Definition send_bomb (o src dst : Z) : M unit :=
  nf <- factory_at src ;;
  if decide (owner (snd nf) <> o) then raise ValueError
  else
    g <- get ;;
    let t := distance_get (distances g) src dst in
    modify (fun g => set_bombs (bombs g ++ [mkBomb o src dst t]) g).

(** ** Bomb resolution *)

Definition resolve_bomb (b : Bomb) : M unit :=
  nf <- factory_at (bomb_destination_factory b) ;;
  let destroyed_cyborgs := Z.max 10 (cyborgs (snd nf) / 2) in
  update_factory (fst nf) (fun f => set_cyborgs (cyborgs f - destroyed_cyborgs) f) ;;;
  update_factory (fst nf) (set_production_disabled 5).

(** ** Battle resolution *)

(** [combatants[owner] += n], creating the entry at 0 first; a Python
    dictionary keeps its keys in insertion order. *)
Fixpoint add_strength (o n : Z) (combatants : list (Z * Z)) : list (Z * Z) :=
  match combatants with
  | [] => [(o, 0 + n)]
  | (o', s) :: rest =>
      if decide (o' = o) then (o', s + n) :: rest
      else (o', s) :: add_strength o n rest
  end.

(** The grouping loop of [resolve_battle]. *)
Definition group_by_owner (arriving_troops : list Troop) : list (Z * Z) :=
  fold_left (fun c t => add_strength (troop_owner t) (num_cyborgs t) c)
            arriving_troops [].

(** [sorted(items, key=lambda x: x[1], reverse=True)]: descending by value,
    and stable, so items of equal value keep their order. *)
Fixpoint insert_desc (x : Z * Z) (l : list (Z * Z)) : list (Z * Z) :=
  match l with
  | [] => [x]
  | y :: l' => if snd y <=? snd x then x :: y :: l' else y :: insert_desc x l'
  end.

Definition sorted_desc (l : list (Z * Z)) : list (Z * Z) :=
  foldr insert_desc [] l.

(** The loop [for loser, loser_cyborgs in sorted_combatants[1:]]. *)
Definition subtract_losers (winner_cyborgs : Z) (losers : list (Z * Z)) : Z :=
  fold_left (fun w l => w - snd l) losers winner_cyborgs.

(** The fight between arriving owners: with more than one of them only the
    first of the sorted items remains. *)
Definition battle_among (combatants : list (Z * Z)) : list (Z * Z) :=
  if (1 <? length combatants)%nat then
    match sorted_desc combatants with
    | (winner, winner_cyborgs) :: losers =>
        [(winner, Z.max 0 (subtract_losers winner_cyborgs losers))]
    | [] => []
    end
  else combatants.

(** [combatants.get(o)] *)
Fixpoint combatants_get (o : Z) (combatants : list (Z * Z)) : option Z :=
  match combatants with
  | [] => None
  | (o', s) :: rest => if decide (o' = o) then Some s else combatants_get o rest
  end.

(** [max] over the items by value: the first of the largest ones. *)
Fixpoint max_item (best : Z * Z) (l : list (Z * Z)) : Z * Z :=
  match l with
  | [] => best
  | x :: l' => max_item (if snd best <? snd x then x else best) l'
  end.

Definition resolve_battle (destination : Z) (arriving_troops : list Troop) : M unit :=
  let combatants := battle_among (group_by_owner arriving_troops) in
  nf <- factory_at destination ;;
  let n := fst nf in
  let factory := snd nf in
  match combatants_get (owner factory) combatants with
  | Some s => update_factory n (fun f => set_cyborgs (cyborgs f + s) f)
  | None =>
      let attacking_force :=
        match combatants with
        | [] => 0
        | x :: l => snd (max_item x l)
        end in
      if cyborgs factory <? attacking_force then
        match combatants with
        | [] => raise ValueError
        | x :: l =>
            let new_owner := fst (max_item x l) in
            update_factory n (set_owner new_owner) ;;;
            update_factory n (fun f => set_cyborgs (attacking_force - cyborgs f) f) ;;;
            p <- randint 0 3 ;;
            update_factory n (set_production p)
        end
      else update_factory n (fun f => set_cyborgs (cyborgs f - attacking_force) f)
  end.

(** ** The turn *)

Definition move_troop (t : Troop) : Troop :=
  mkTroop (troop_owner t) (num_cyborgs t) (source_factory t)
          (destination_factory t) (travel_time t - 1).

Definition move_bomb (b : Bomb) : Bomb :=
  mkBomb (bomb_owner b) (bomb_source_factory b) (bomb_destination_factory b)
         (bomb_travel_time b - 1).

(** [battles[dest].append(troop)], creating the list first. *)
Fixpoint add_to_battles (t : Troop) (battles : list (Z * list Troop))
    : list (Z * list Troop) :=
  match battles with
  | [] => [(destination_factory t, [] ++ [t])]
  | (d, ts) :: rest =>
      if decide (d = destination_factory t) then (d, ts ++ [t]) :: rest
      else (d, ts) :: add_to_battles t rest
  end.

(** The first loop of [update_troops], over the copy [self.troops[:]]: the
    troops still in flight and the battles, both in order.  It raises
    nothing, so its intermediate states are never seen. *)
Definition move_troops (ts : list Troop) : list Troop * list (Z * list Troop) :=
  fold_left
    (fun acc t =>
       let t' := move_troop t in
       if travel_time t' =? 0 then (fst acc, add_to_battles t' (snd acc))
       else (fst acc ++ [t'], snd acc))
    ts ([], []).

Fixpoint resolve_battles (battles : list (Z * list Troop)) : M unit :=
  match battles with
  | [] => ret tt
  | (dest, ts) :: rest => resolve_battle dest ts ;;; resolve_battles rest
  end.

Definition update_troops : M unit :=
  g <- get ;;
  let moved := move_troops (troops g) in
  modify (set_troops (fst moved)) ;;;
  resolve_battles (snd moved).

(** The loop of [update_bombs] over the copy [self.bombs[:]]: [kept] holds
    the bombs already moved and still in flight, [snapshot] the ones not
    yet visited.  A bomb is removed only after its resolution returned. *)
Fixpoint update_bombs_loop (kept snapshot : list Bomb) : M unit :=
  match snapshot with
  | [] => ret tt
  | b :: rest =>
      let b' := move_bomb b in
      modify (set_bombs (kept ++ b' :: rest)) ;;;
      if bomb_travel_time b' =? 0 then
        resolve_bomb b' ;;;
        modify (set_bombs (kept ++ rest)) ;;;
        update_bombs_loop kept rest
      else update_bombs_loop (kept ++ [b']) rest
  end.

Definition update_bombs : M unit :=
  g <- get ;;
  update_bombs_loop [] (bombs g).

(** The body of the production loop of [update]. *)
Definition produce (f : Factory) : Factory :=
  if negb (owner f =? 0) && (production_disabled f =? 0) then
    set_cyborgs (cyborgs f + production f) f
  else if 0 <? production_disabled f then
    set_production_disabled (production_disabled f - 1) f
  else f.

Definition produce_all : M unit :=
  modify (fun g => set_factories (map produce (factories g)) g).

Definition update : M unit :=
  update_troops ;;;
  update_bombs ;;;
  produce_all.

(** [n] successive calls of [update]. *)
Fixpoint updates (n : nat) : M unit :=
  match n with
  | O => ret tt
  | S n' => update ;;; updates n'
  end.

(** * Vocabulary of the properties *)

Definition sumZ (l : list Z) : Z := foldr Z.add 0 l.

Definition strength (o : Z) (ts : list Troop) : Z :=
  sumZ (map num_cyborgs (filter (fun t => troop_owner t = o) ts)).

Fixpoint first_of (a b : Z) (ks : list Z) : bool :=
  match ks with
  | [] => false
  | k :: ks' =>
      if decide (k = a) then true
      else if decide (k = b) then false
      else first_of a b ks'
  end.

Definition arrives_first (w o : Z) (ts : list Troop) : bool :=
  first_of w o (map troop_owner ts).

Definition add_key (ks : list Z) (o : Z) : list Z :=
  if bool_decide (o ∈ ks) then ks else ks ++ [o].

Definition arrivals (d : Z) (active : list Troop) : list Troop :=
  filter (fun t => destination_factory t = d)
         (filter (fun t => travel_time t = 0) (map move_troop active)).

Definition elsewhere (i len : nat) (d : Z) : bool :=
  match py_index len d with
  | Some j => negb (Nat.eqb j i)
  | None => false
  end.

(** No troop and no bomb in flight is headed for factory [i]. *)
Definition quiet_at (i : nat) (g : Game) : Prop :=
  Forall (fun t => elsewhere i (length (factories g)) (destination_factory t) = true)
         (troops g)
  /\ Forall (fun b => elsewhere i (length (factories g)) (bomb_destination_factory b) = true)
            (bombs g).

(** Bombs never touch an owner or a production rate. *)
Definition same_rate (f f' : Factory) : Prop :=
  owner f' = owner f /\ production f' = production f.

Definition conquest_game (r : Rng) : Game :=
  mkGame [mkFactory 0 3 0 0] [mkTroop 1 7 1 0 1] [] ∅ r.

Definition neutral_ok_f (f : Factory) : Prop := owner f = 0 -> production f = 0.

(** A factory as the construction phase leaves it. *)
Definition fresh_ok (f : Factory) : Prop :=
  neutral_ok_f f /\ production_disabled f = 0.

Definition init_ok (g : Game) : Prop :=
  Forall fresh_ok (factories g) /\ troops g = [].

(** The number of unordered pairs [{a, b}] that [distances] holds: each is
    stored under both orderings, one of which has [a < b]. *)
Definition unordered_pairs (d : gmap (Z * Z) Z) : nat :=
  length (List.filter (fun k => fst k <? snd k) (map fst (map_to_list d))).

(** A generator whose raw draws are 0, 1, 2, ... *)
Definition counting_rng : Rng := mkRng (fun n => Z.of_nat n) 0.

(** A two-factory board used by the worked examples: player 1 holds
    factory 0 with 12 cyborgs, factory 1 is neutral with 8. *)
Definition example_game : Game :=
  mkGame [mkFactory 1 12 2 0; mkFactory 0 8 0 0] [] [] ∅ counting_rng.

(** A factory as the first loop of [initialize_factories] creates it. *)
Definition fresh_neutral (f : Factory) : Prop :=
  owner f = 0 /\ 15 <= cyborgs f <= 30 /\ production f = 0
  /\ production_disabled f = 0.

(** What [initialize_factories] leaves at position [i]. *)
Definition initial_factory (i : nat) (f : Factory) : Prop :=
  15 <= cyborgs f <= 30 /\ production_disabled f = 0
  /\ match i with
     | O => owner f = 1 /\ 0 <= production f <= 3
     | S O => owner f = 2 /\ 0 <= production f <= 3
     | _ => owner f = 0 /\ production f = 0
     end.

(** The links [initialize_distances] stores: a distance between 1 and 20,
    kept under both orderings of two distinct positions of [range(n)]. *)
Definition links_ok (n : Z) (d : gmap (Z * Z) Z) : Prop :=
  forall a b x, d !! (a, b) = Some x ->
    1 <= x <= 20 /\ d !! (b, a) = Some x /\ a <> b
    /\ 0 <= a < n /\ 0 <= b < n.

(** Every stored key, in one ordering or the other, is in [links]. *)
Definition links_cover (links : gset (Z * Z)) (d : gmap (Z * Z) Z) : Prop :=
  forall a b, is_Some (d !! (a, b)) -> (a, b) ∈ links \/ (b, a) ∈ links.

(** The parts of a game no phase of a turn writes to: the distance table
    and the number of factories. *)
Definition same_board (g g' : Game) : Prop :=
  distances g' = distances g /\ length (factories g') = length (factories g).

(** Every troop and bomb in flight is headed for an existing factory. *)
Definition in_flight_ok (g : Game) : Prop :=
  Forall (fun t => is_Some (py_index (length (factories g)) (destination_factory t)))
         (troops g)
  /\ Forall (fun b => is_Some (py_index (length (factories g))
                                        (bomb_destination_factory b)))
            (bombs g).

(** Stored distances and the travel times of the troops in flight are
    between 1 and 20. *)
Definition flight_times_ok (g : Game) : Prop :=
  (forall a b x, distances g !! (a, b) = Some x -> 1 <= x <= 20)
  /\ Forall (fun t => 1 <= travel_time t <= 20) (troops g).

(** The ranges the code keeps a factory's rate and counter in. *)
Definition attr_ok (f : Factory) : Prop :=
  0 <= production f <= 3 /\ 0 <= production_disabled f <= 5.

(** A troop and a bomb [k] turns later. *)
Definition advance_troop (k : Z) (t : Troop) : Troop :=
  mkTroop (troop_owner t) (num_cyborgs t) (source_factory t)
          (destination_factory t) (travel_time t - k).

Definition advance_bomb (k : Z) (b : Bomb) : Bomb :=
  mkBomb (bomb_owner b) (bomb_source_factory b) (bomb_destination_factory b)
         (bomb_travel_time b - k).

(** The example at the end of [referee.py], up to the call of the
    visualizer: [Game(10, 7)], a troop command, a turn, a bomb command and
    two turns. *)
Definition example_usage (fuel : nat) (r : Rng) : (exn + unit) * Game :=
  match Game_init fuel 10 7 r with
  | (inr _, game) =>
      (send_troop 1 5 0 2 ;;;
       update ;;;
       send_bomb 1 0 6 ;;;
       update ;;;
       update) game
  | (inl e, game) => (inl e, game)
  end.

(** All cyborgs of a game: those in the factories and those in flight. *)
Definition total_cyborgs (g : Game) : Z :=
  sumZ (map cyborgs (factories g)) + sumZ (map num_cyborgs (troops g)).

(** The calls a client can make on a game. *)
Inductive Command : Type :=
| SendTroop (o n src dst : Z)
| SendBomb (o src dst : Z)
| Update.

Definition run_command (c : Command) : M unit :=
  match c with
  | SendTroop o n src dst => send_troop o n src dst
  | SendBomb o src dst => send_bomb o src dst
  | Update => update
  end.

(** The game after a sequence of calls made one after the other, whether
    each of them returned or raised: a call that raises leaves the game as
    it had mutated it, and the client may go on. *)
Fixpoint run_commands (cs : list Command) (g : Game) : Game :=
  match cs with
  | [] => g
  | c :: cs' => run_commands cs' (snd (run_command c g))
  end.

(** [d] is an index of the factory at position [i], among [len] factories. *)
Definition aims_at (len i : nat) (d : Z) : bool :=
  match py_index len d with
  | Some j => Nat.eqb j i
  | None => false
  end.

(** A call is accepted when it returns. *)
Definition accepted (c : Command) (g : Game) : bool :=
  match fst (run_command c g) with
  | inr _ => true
  | inl _ => false
  end.

(** Some troop command of the sequence, made in the name of owner 0 and
    accepted, is headed for factory [i]. *)
Fixpoint neutral_troop_sent_to (i : nat) (cs : list Command) (g : Game) : bool :=
  match cs with
  | [] => false
  | c :: cs' =>
      match c with
      | SendTroop o _ _ dst =>
          (o =? 0) && accepted c g && aims_at (length (factories g)) i dst
      | _ => false
      end
      || neutral_troop_sent_to i cs' (snd (run_command c g))
  end.

(** Some accepted bomb command of the sequence is headed for factory [i]. *)
Fixpoint bomb_sent_to (i : nat) (cs : list Command) (g : Game) : bool :=
  match cs with
  | [] => false
  | c :: cs' =>
      match c with
      | SendBomb _ _ dst => accepted c g && aims_at (length (factories g)) i dst
      | _ => false
      end
      || bomb_sent_to i cs' (snd (run_command c g))
  end.

(** Factory [i], if it is neutral, has no production. *)
Definition neutral_rate_zero (i : nat) (g : Game) : Prop :=
  forall f, factories g !! i = Some f -> owner f = 0 -> production f = 0.

(** Factory [i] is not disabled. *)
Definition not_disabled (i : nat) (g : Game) : Prop :=
  forall f, factories g !! i = Some f -> production_disabled f = 0.

(** No troop of owner 0 is on its way to factory [i]. *)
Definition rate_safe_at (i : nat) (g : Game) : Prop :=
  neutral_rate_zero i g
  /\ Forall (fun t => troop_owner t = 0 ->
                      aims_at (length (factories g)) i (destination_factory t) = false)
            (troops g).

(** No bomb is on its way to factory [i]. *)
Definition counter_safe_at (i : nat) (g : Game) : Prop :=
  not_disabled i g
  /\ Forall (fun b => aims_at (length (factories g)) i (bomb_destination_factory b) = false)
            (bombs g).

(** * Properties *)

(** ** Indexing and factory updates *)

Lemma py_index_lt (len : nat) (i : Z) (n : nat) :
  py_index len i = Some n -> (n < len)%nat.
Proof.
  unfold py_index. intros H.
  destruct ((0 <=? i) && (i <? Z.of_nat len)) eqn:E1.
  - apply andb_true_iff in E1 as [H1 H2]. inversion H; subst. lia.
  - destruct ((- Z.of_nat len <=? i) && (i <? 0)) eqn:E2; [|discriminate].
    apply andb_true_iff in E2 as [H1 H2]. inversion H; subst. lia.
Qed.

Lemma factory_at_ok (g : Game) (i : Z) (n : nat) (f : Factory) :
  py_index (length (factories g)) i = Some n ->
  factories g !! n = Some f ->
  factory_at i g = (inr (n, f), g).
Proof.
  intros Hi Hf. unfold factory_at, bind, get. rewrite Hi, Hf. reflexivity.
Qed.

Lemma alter_lookup_insert (h : Factory -> Factory) (n : nat) (fs : list Factory) (f : Factory) :
  fs !! n = Some f -> alter h n fs = <[n := h f]> fs.
Proof.
  intros Hf. apply list_eq. intros j.
  destruct (decide (n = j)) as [->|Hne].
  - rewrite list_lookup_alter_eq, Hf. simpl.
    rewrite list_lookup_insert_eq; [done|]. by eapply lookup_lt_Some.
  - by rewrite list_lookup_alter_ne, list_lookup_insert_ne.
Qed.

(** C5.  A bomb resolved at a factory holding [c] cyborgs removes exactly
    [max 10 (c / 2)] of them, with Python's floor division and no floor at
    zero (so fewer than 10 cyborgs leave a negative count), sets the
    production-disabled counter to 5 whatever it was, and leaves the owner,
    the production rate and every other part of the game as they were. *)
Theorem resolve_bomb_effect (g : Game) (b : Bomb) (i : nat) (f : Factory) :
  py_index (length (factories g)) (bomb_destination_factory b) = Some i ->
  factories g !! i = Some f ->
  resolve_bomb b g =
    (inr tt,
     set_factories
       (<[i := mkFactory (owner f) (cyborgs f - Z.max 10 (cyborgs f / 2))
                         (production f) 5]> (factories g)) g)
  /\ (cyborgs f < 10 -> cyborgs f - Z.max 10 (cyborgs f / 2) < 0).
Proof.
  intros Hi Hf. split; [|lia].
  unfold resolve_bomb, bind. rewrite (factory_at_ok g _ i f Hi Hf). simpl.
  unfold update_factory, modify, set_factories. simpl.
  rewrite list_alter_alter_eq.
  f_equal. f_equal. rewrite (alter_lookup_insert _ _ _ f Hf). reflexivity.
Qed.

(** The bomb of the specification's example: 12 cyborgs, 10 destroyed. *)
Lemma resolve_bomb_effect_witness :
  resolve_bomb (mkBomb 2 1 0 0) example_game =
    (inr tt,
     set_factories
       (<[0%nat := mkFactory 1 (12 - Z.max 10 (12 / 2)) 2 5]> (factories example_game))
       example_game)
  /\ (12 < 10 -> 12 - Z.max 10 (12 / 2) < 0).
Proof.
  apply (resolve_bomb_effect example_game (mkBomb 2 1 0 0) 0 (mkFactory 1 12 2 0));
    reflexivity.
Defined.

(** ** Commands *)

(** C6.  When the requesting owner is not the owner of the source factory,
    [send_troop] and [send_bomb] both raise [ValueError] and the game they
    leave behind is the game they were given: factories, troops, bombs and
    distances are untouched. *)
Theorem send_rejects_foreign_owner (g : Game) (o n src dst : Z) (i : nat) (f : Factory) :
  py_index (length (factories g)) src = Some i ->
  factories g !! i = Some f ->
  owner f <> o ->
  send_troop o n src dst g = (inl ValueError, g)
  /\ send_bomb o src dst g = (inl ValueError, g).
Proof.
  intros Hi Hf Ho. unfold send_troop, send_bomb, bind.
  rewrite (factory_at_ok g _ i f Hi Hf). simpl.
  destruct (decide (owner f <> o)); [done | contradiction].
Qed.

(** Player 2 orders from a factory of player 1. *)
Lemma send_rejects_foreign_owner_witness :
  send_troop 2 5 0 1 example_game = (inl ValueError, example_game)
  /\ send_bomb 2 0 1 example_game = (inl ValueError, example_game).
Proof.
  apply (send_rejects_foreign_owner example_game 2 5 0 1 0 (mkFactory 1 12 2 0));
    [reflexivity | reflexivity | simpl; lia].
Defined.

(** C8.  When the requesting owner holds the source factory, [send_troop]
    appends exactly one troop, whose travel time is the stored distance from
    source to destination, or 20 when none is stored, and subtracts the
    count from the cyborgs of the source factory without any floor check;
    bombs, distances, the generator and all other factories are unchanged. *)
Theorem send_troop_effect (g : Game) (o n src dst : Z) (i : nat) (f : Factory) :
  py_index (length (factories g)) src = Some i ->
  factories g !! i = Some f ->
  owner f = o ->
  send_troop o n src dst g =
    (inr tt,
     mkGame (<[i := mkFactory (owner f) (cyborgs f - n) (production f)
                              (production_disabled f)]> (factories g))
            (troops g ++ [mkTroop o n src dst
                            (match distances g !! (src, dst) with
                             | Some d => d
                             | None => 20
                             end)])
            (bombs g) (distances g) (random g)).
Proof.
  intros Hi Hf Ho. unfold send_troop, bind.
  rewrite (factory_at_ok g _ i f Hi Hf). simpl.
  destruct (decide (owner f <> o)); [contradiction|].
  unfold get, modify. simpl.
  rewrite (factory_at_ok _ _ i f); [| exact Hi | exact Hf]. simpl.
  unfold update_factory, modify, set_factories, set_troops. simpl.
  rewrite (alter_lookup_insert _ _ _ f Hf). unfold distance_get.
  destruct (distances g !! (src, dst)); reflexivity.
Qed.

(** Five cyborgs sent over a pair with no stored distance travel 20 turns. *)
Lemma send_troop_effect_witness :
  send_troop 1 5 0 1 example_game =
    (inr tt,
     mkGame [mkFactory 1 (12 - 5) 2 0; mkFactory 0 8 0 0]
            [mkTroop 1 5 0 1 20] [] ∅ counting_rng).
Proof.
  apply (send_troop_effect example_game 1 5 0 1 0 (mkFactory 1 12 2 0));
    reflexivity.
Defined.

(** ** Battles with one combatant *)

Lemma randint_value_range (a b : Z) (r : Rng) :
  a <= b -> a <= randint_value a b r <= b.
Proof.
  intros Hab. unfold randint_value.
  pose proof (Z.mod_pos_bound (rng_peek r) (b - a + 1)). lia.
Qed.

(** C4.  A battle whose net combatant is owner [o] with strength [s], at a
    factory [f]: if [o] owns [f] the cyborgs become [cyborgs f + s] and
    nothing else changes; else if [s > cyborgs f] the owner becomes [o], the
    cyborgs become [s - cyborgs f], the production is redrawn in [0, 3] and
    the production-disabled counter is kept; else the cyborgs become
    [cyborgs f - s] and the owner is kept. *)
Theorem resolve_battle_single (g : Game) (d : Z) (ts : list Troop) (o s : Z)
    (i : nat) (f : Factory) :
  battle_among (group_by_owner ts) = [(o, s)] ->
  py_index (length (factories g)) d = Some i ->
  factories g !! i = Some f ->
  (owner f = o ->
   resolve_battle d ts g =
     (inr tt, set_factories (<[i := set_cyborgs (cyborgs f + s) f]> (factories g)) g))
  /\ (owner f <> o -> s > cyborgs f ->
      let p := randint_value 0 3 (random g) in
      0 <= p <= 3 /\
      resolve_battle d ts g =
        (inr tt,
         mkGame (<[i := mkFactory o (s - cyborgs f) p (production_disabled f)]>
                   (factories g))
                (troops g) (bombs g) (distances g) (rng_next (random g))))
  /\ (owner f <> o -> s <= cyborgs f ->
      resolve_battle d ts g =
        (inr tt, set_factories (<[i := set_cyborgs (cyborgs f - s) f]> (factories g)) g)).
Proof.
  intros Hb Hi Hf. unfold resolve_battle, bind.
  rewrite (factory_at_ok g _ i f Hi Hf), Hb. simpl.
  split; [|split].
  - intros Ho. destruct (decide (o = owner f)); [|congruence].
    unfold update_factory, modify. by rewrite (alter_lookup_insert _ _ _ f Hf).
  - intros Ho Hs. split; [apply randint_value_range; lia|].
    destruct (decide (o = owner f)); [congruence|].
    destruct (cyborgs f <? s) eqn:E; [|lia].
    unfold update_factory, modify, randint, set_factories, set_random. simpl.
    rewrite !list_alter_alter_eq. rewrite (alter_lookup_insert _ _ _ f Hf).
    reflexivity.
  - intros Ho Hs. destruct (decide (o = owner f)); [congruence|].
    destruct (cyborgs f <? s) eqn:E; [lia|].
    unfold update_factory, modify. by rewrite (alter_lookup_insert _ _ _ f Hf).
Qed.

(** Twelve cyborgs of player 1 arrive at a neutral factory that holds 8. *)
Lemma resolve_battle_single_witness :
  (0 = 1 ->
   resolve_battle 1 [mkTroop 1 12 0 1 0] example_game =
     (inr tt,
      set_factories (<[1%nat := set_cyborgs (8 + 12) (mkFactory 0 8 0 0)]>
                       (factories example_game)) example_game))
  /\ (0 <> 1 -> 12 > 8 ->
      0 <= randint_value 0 3 counting_rng <= 3 /\
      resolve_battle 1 [mkTroop 1 12 0 1 0] example_game =
        (inr tt,
         mkGame (<[1%nat := mkFactory 1 (12 - 8) (randint_value 0 3 counting_rng) 0]>
                   (factories example_game))
                [] [] ∅ (rng_next counting_rng)))
  /\ (0 <> 1 -> 12 <= 8 ->
      resolve_battle 1 [mkTroop 1 12 0 1 0] example_game =
        (inr tt,
         set_factories (<[1%nat := set_cyborgs (8 - 12) (mkFactory 0 8 0 0)]>
                          (factories example_game)) example_game)).
Proof.
  apply (resolve_battle_single example_game 1 [mkTroop 1 12 0 1 0] 1 12 1
           (mkFactory 0 8 0 0)); reflexivity.
Defined.

(** ** Grouping and sorting of combatants *)

Lemma add_key_in (ks : list Z) (o : Z) : o ∈ ks -> add_key ks o = ks.
Proof. intros H. unfold add_key. by rewrite bool_decide_eq_true_2. Qed.

Lemma add_key_notin (ks : list Z) (o : Z) : o ∉ ks -> add_key ks o = ks ++ [o].
Proof. intros H. unfold add_key. by rewrite bool_decide_eq_false_2. Qed.

Lemma keys_add_strength (o n : Z) (c : list (Z * Z)) :
  map fst (add_strength o n c) = add_key (map fst c) o.
Proof.
  induction c as [|[o' s] c IH].
  - rewrite add_key_notin; [done|]. apply not_elem_of_nil.
  - cbn [add_strength map fst]. destruct (decide (o' = o)) as [->|Hne].
    + rewrite add_key_in; [done|]. apply list_elem_of_here.
    + cbn [map fst]. rewrite IH.
      destruct (decide (o ∈ map fst c)) as [Hin|Hin].
      * rewrite !add_key_in; [done| by apply list_elem_of_further | done].
      * rewrite !add_key_notin; [done| | done].
        rewrite not_elem_of_cons. by split.
Qed.

Lemma keys_group_fold (ts : list Troop) (c : list (Z * Z)) :
  map fst (fold_left (fun c t => add_strength (troop_owner t) (num_cyborgs t) c) ts c)
  = fold_left add_key (map troop_owner ts) (map fst c).
Proof.
  revert c. induction ts as [|t ts IH]; intros c; simpl; [done|].
  rewrite IH, keys_add_strength. done.
Qed.

Lemma get_add_strength (o o' n : Z) (c : list (Z * Z)) :
  combatants_get o (add_strength o' n c) =
  if decide (o' = o) then Some (default 0 (combatants_get o c) + n)
  else combatants_get o c.
Proof.
  induction c as [|[k s] c IH]; simpl.
  - destruct (decide (o' = o)); done.
  - destruct (decide (k = o')) as [->|Hk]; simpl.
    + destruct (decide (o' = o)); done.
    + destruct (decide (k = o)) as [->|Hko].
      * destruct (decide (o' = o)); [congruence|done].
      * exact IH.
Qed.

Lemma sumZ_app (l1 l2 : list Z) : sumZ (l1 ++ l2) = sumZ l1 + sumZ l2.
Proof. induction l1; simpl; lia. Qed.

Lemma strength_cons (o : Z) (t : Troop) (ts : list Troop) :
  strength o (t :: ts) =
  (if decide (troop_owner t = o) then num_cyborgs t else 0) + strength o ts.
Proof.
  unfold strength. rewrite filter_cons.
  destruct (decide (troop_owner t = o)); simpl; lia.
Qed.

Lemma get_group_fold (ts : list Troop) (c : list (Z * Z)) (o : Z) :
  combatants_get o
    (fold_left (fun c t => add_strength (troop_owner t) (num_cyborgs t) c) ts c)
  = if bool_decide (o ∈ map troop_owner ts)
    then Some (default 0 (combatants_get o c) + strength o ts)
    else combatants_get o c.
Proof.
  revert c. induction ts as [|t ts IH]; intros c.
  - rewrite bool_decide_eq_false_2; [done|]. apply not_elem_of_nil.
  - cbn [fold_left map]. rewrite IH, get_add_strength, strength_cons.
    destruct (decide (troop_owner t = o)) as [Ho|Ho].
    + rewrite (bool_decide_eq_true_2 (o ∈ troop_owner t :: _));
        [|rewrite Ho; apply list_elem_of_here].
      destruct (bool_decide (o ∈ map troop_owner ts)) eqn:E; simpl.
      * f_equal. lia.
      * f_equal. apply bool_decide_eq_false_1 in E.
        assert (strength o ts = 0) as ->; [|lia].
        clear IH. induction ts as [|t' ts IH']; [done|].
        rewrite strength_cons.
        apply not_elem_of_cons in E as [E1 E2].
        destruct (decide (troop_owner t' = o)); [congruence|].
        rewrite IH'; [lia|done].
    + destruct (decide (o ∈ map troop_owner ts)) as [Hin|Hin].
      * rewrite !bool_decide_eq_true_2; [f_equal; lia| by apply list_elem_of_further | done].
      * rewrite !bool_decide_eq_false_2; [done| | done].
        rewrite not_elem_of_cons. split; [congruence|done].
Qed.

Lemma group_by_owner_get (ts : list Troop) (o : Z) :
  combatants_get o (group_by_owner ts) =
  if bool_decide (o ∈ map troop_owner ts) then Some (strength o ts) else None.
Proof.
  unfold group_by_owner. rewrite get_group_fold. simpl.
  destruct (bool_decide _); done.
Qed.

Lemma insert_desc_perm (x : Z * Z) (l : list (Z * Z)) :
  insert_desc x l ≡ₚ x :: l.
Proof.
  induction l as [|y l IH]; simpl; [done|].
  destruct (snd y <=? snd x); [done|]. rewrite IH. apply Permutation_swap.
Qed.

Lemma sorted_desc_perm (l : list (Z * Z)) : sorted_desc l ≡ₚ l.
Proof.
  induction l as [|x l IH]; simpl; [done|].
  rewrite insert_desc_perm. by rewrite IH.
Qed.

Lemma insert_desc_sorted (x : Z * Z) (l : list (Z * Z)) :
  Sorted (fun a b => snd b <= snd a) l ->
  Sorted (fun a b => snd b <= snd a) (insert_desc x l).
Proof.
  induction 1 as [|y l Hs IH Hd]; simpl.
  - repeat constructor.
  - destruct (snd y <=? snd x) eqn:E.
    + constructor; [by constructor|]. constructor. lia.
    + constructor; [exact IH|].
      destruct l as [|z l]; simpl.
      * constructor. lia.
      * destruct (snd z <=? snd x); constructor; [lia|].
        by inversion Hd.
Qed.

Lemma sorted_desc_sorted (l : list (Z * Z)) :
  Sorted (fun a b => snd b <= snd a) (sorted_desc l).
Proof.
  induction l; simpl; [constructor|]. by apply insert_desc_sorted.
Qed.

(** The head of the sorted items is the first of the largest items. *)
Lemma sorted_desc_head (l : list (Z * Z)) (x : Z * Z) (rest : list (Z * Z)) :
  sorted_desc l = x :: rest ->
  exists l1 l2, l = l1 ++ x :: l2
    /\ Forall (fun y => snd y < snd x) l1
    /\ Forall (fun y => snd y <= snd x) l2.
Proof.
  revert x rest. induction l as [|a l IH]; intros x rest; simpl; [done|].
  destruct (sorted_desc l) as [|y r] eqn:E; simpl.
  - intros [= <- <-]. exists [], l.
    assert (l = []) as ->.
    { apply Permutation_nil. rewrite <- (sorted_desc_perm l), E. done. }
    repeat split; constructor.
  - destruct (IH y r eq_refl) as (l1 & l2 & -> & H1 & H2).
    destruct (snd y <=? snd a) eqn:Ele.
    + intros [= <- <-]. exists [], (l1 ++ y :: l2). repeat split; [constructor|].
      apply Forall_app. split.
      * eapply Forall_impl; [exact H1|]. simpl. intros; lia.
      * constructor; [lia|]. eapply Forall_impl; [exact H2|]. simpl. intros; lia.
    + intros [= <- <-]. exists (a :: l1), l2. repeat split; [|done].
      constructor; [lia|done].
Qed.

Lemma subtract_losers_sum (w : Z) (losers : list (Z * Z)) :
  subtract_losers w losers = w - sumZ (map snd losers).
Proof.
  unfold subtract_losers. revert w.
  induction losers as [|l ls IH]; intros w; simpl; [lia|]. rewrite IH. lia.
Qed.

Lemma two_keys_length (c : list (Z * Z)) (a b : Z) :
  a <> b -> is_Some (combatants_get a c) -> is_Some (combatants_get b c) ->
  (1 < length c)%nat.
Proof.
  intros Hab [x Hx] [y Hy].
  destruct c as [|[k s] [|p c]]; simpl in *; try done; [|lia].
  destruct (decide (k = a)); destruct (decide (k = b)); congruence.
Qed.

Lemma sorted_desc_length (l : list (Z * Z)) : length (sorted_desc l) = length l.
Proof. apply Permutation_length, sorted_desc_perm. Qed.

Lemma battle_among_multi (c : list (Z * Z)) (w s : Z) (losers : list (Z * Z)) :
  sorted_desc c = (w, s) :: losers -> losers <> [] ->
  battle_among c = [(w, Z.max 0 (s - sumZ (map snd losers)))].
Proof.
  intros Hs Hl. unfold battle_among.
  assert (1 < length c)%nat as Hlen.
  { rewrite <- sorted_desc_length, Hs. destruct losers; [done|simpl; lia]. }
  apply Nat.ltb_lt in Hlen. rewrite Hlen, Hs, subtract_losers_sum. done.
Qed.

(** C3.  For a battle group with at least two distinct owners,
    [group_by_owner] holds for each owner the sum of its troops, the owners
    are ordered by that sum, largest first, the head's sum is reduced by the
    sums of all the others and floored at 0, and exactly one combatant is
    left.  For 7 cyborgs of owner 1 and 10 of owner 2 at a neutral factory
    holding 3, owner 2 survives with strength 3, the factory is not
    conquered, and it ends neutral with 0 cyborgs. *)
Theorem multi_owner_battle (ts : list Troop) (t1 t2 : Troop) :
  t1 ∈ ts -> t2 ∈ ts -> troop_owner t1 <> troop_owner t2 ->
  (forall o, combatants_get o (group_by_owner ts) =
             if bool_decide (o ∈ map troop_owner ts) then Some (strength o ts)
             else None)
  /\ (exists w s losers,
        sorted_desc (group_by_owner ts) = (w, s) :: losers
        /\ sorted_desc (group_by_owner ts) ≡ₚ group_by_owner ts
        /\ Sorted (fun a b => snd b <= snd a) (sorted_desc (group_by_owner ts))
        /\ Forall (fun l => snd l <= s) losers
        /\ battle_among (group_by_owner ts) =
             [(w, Z.max 0 (s - sumZ (map snd losers)))])
  /\ (forall r,
        battle_among (group_by_owner [mkTroop 1 7 1 0 0; mkTroop 2 10 2 0 0])
          = [(2, 3)]
        /\ resolve_battle 0 [mkTroop 1 7 1 0 0; mkTroop 2 10 2 0 0]
             (mkGame [mkFactory 0 3 0 0] [] [] ∅ r)
           = (inr tt, mkGame [mkFactory 0 0 0 0] [] [] ∅ r)).
Proof.
  intros H1 H2 Hne. split; [apply group_by_owner_get|]. split; [|by intros r].
  assert (1 < length (group_by_owner ts))%nat as Hlen.
  { apply (two_keys_length _ (troop_owner t1) (troop_owner t2) Hne);
      rewrite group_by_owner_get, bool_decide_eq_true_2; try done;
      apply list_elem_of_In, in_map, list_elem_of_In; done. }
  destruct (sorted_desc (group_by_owner ts)) as [|[w s] losers] eqn:E.
  { rewrite <- sorted_desc_length, E in Hlen. simpl in Hlen. lia. }
  exists w, s, losers.
  assert (losers <> []) as Hl.
  { rewrite <- sorted_desc_length, E in Hlen. destruct losers; [simpl in Hlen; lia|done]. }
  split; [done|]. split; [rewrite <- E; apply sorted_desc_perm|].
  split; [rewrite <- E; apply sorted_desc_sorted|].
  split; [|by apply battle_among_multi].
  destruct (sorted_desc_head _ _ _ E) as (l1 & l2 & Hg & Hl1 & Hl2).
  assert (Forall (fun l => snd l <= s) ((w, s) :: losers)) as HF.
  { rewrite <- E. rewrite (sorted_desc_perm (group_by_owner ts)), Hg.
    apply Forall_app. split.
    - eapply Forall_impl; [exact Hl1|]. simpl. intros; lia.
    - constructor; [simpl; lia|]. exact Hl2. }
  by inversion HF.
Qed.

(** The group of the specification's example. *)
Lemma multi_owner_battle_witness :
  (forall o, combatants_get o (group_by_owner [mkTroop 1 7 1 0 0; mkTroop 2 10 2 0 0]) =
             if bool_decide (o ∈ map troop_owner [mkTroop 1 7 1 0 0; mkTroop 2 10 2 0 0])
             then Some (strength o [mkTroop 1 7 1 0 0; mkTroop 2 10 2 0 0])
             else None)
  /\ (exists w s losers,
        sorted_desc (group_by_owner [mkTroop 1 7 1 0 0; mkTroop 2 10 2 0 0])
          = (w, s) :: losers
        /\ sorted_desc (group_by_owner [mkTroop 1 7 1 0 0; mkTroop 2 10 2 0 0])
             ≡ₚ group_by_owner [mkTroop 1 7 1 0 0; mkTroop 2 10 2 0 0]
        /\ Sorted (fun a b => snd b <= snd a)
             (sorted_desc (group_by_owner [mkTroop 1 7 1 0 0; mkTroop 2 10 2 0 0]))
        /\ Forall (fun l => snd l <= s) losers
        /\ battle_among (group_by_owner [mkTroop 1 7 1 0 0; mkTroop 2 10 2 0 0]) =
             [(w, Z.max 0 (s - sumZ (map snd losers)))])
  /\ (forall r,
        battle_among (group_by_owner [mkTroop 1 7 1 0 0; mkTroop 2 10 2 0 0])
          = [(2, 3)]
        /\ resolve_battle 0 [mkTroop 1 7 1 0 0; mkTroop 2 10 2 0 0]
             (mkGame [mkFactory 0 3 0 0] [] [] ∅ r)
           = (inr tt, mkGame [mkFactory 0 0 0 0] [] [] ∅ r)).
Proof.
  apply (multi_owner_battle [mkTroop 1 7 1 0 0; mkTroop 2 10 2 0 0]
           (mkTroop 1 7 1 0 0) (mkTroop 2 10 2 0 0)).
  - apply list_elem_of_here.
  - apply list_elem_of_further, list_elem_of_here.
  - simpl. lia.
Defined.

(** ** Order of arrival *)

Lemma add_key_NoDup (ks : list Z) (o : Z) : NoDup ks -> NoDup (add_key ks o).
Proof.
  intros H. destruct (decide (o ∈ ks)) as [Hin|Hin].
  - by rewrite add_key_in.
  - rewrite add_key_notin; [|done]. apply NoDup_app. split; [done|].
    split; [|apply NoDup_singleton].
    intros x Hx Hx'. apply list_elem_of_singleton in Hx'. congruence.
Qed.

Lemma fold_add_key_NoDup (os ks : list Z) :
  NoDup ks -> NoDup (fold_left add_key os ks).
Proof.
  revert ks. induction os as [|o os IH]; intros ks H; simpl; [done|].
  apply IH, add_key_NoDup, H.
Qed.

Lemma group_by_owner_NoDup (ts : list Troop) :
  NoDup (map fst (group_by_owner ts)).
Proof.
  unfold group_by_owner. rewrite keys_group_fold.
  apply fold_add_key_NoDup, NoDup_nil_2.
Qed.

Lemma first_of_app_in (a b : Z) (ks l : list Z) :
  (a ∈ ks) \/ (b ∈ ks) -> first_of a b (ks ++ l) = first_of a b ks.
Proof.
  induction ks as [|k ks IH]; intros H.
  - destruct H as [H|H]; by apply elem_of_nil in H.
  - simpl. destruct (decide (k = a)); [done|].
    destruct (decide (k = b)); [done|]. apply IH.
    destruct H as [H|H]; apply elem_of_cons in H as [H|H]; try congruence; tauto.
Qed.

Lemma first_of_app_notin (a b : Z) (ks l : list Z) :
  a ∉ ks -> b ∉ ks -> first_of a b (ks ++ l) = first_of a b l.
Proof.
  induction ks as [|k ks IH]; intros Ha Hb; [done|].
  apply not_elem_of_cons in Ha as [Ha1 Ha2].
  apply not_elem_of_cons in Hb as [Hb1 Hb2]. simpl.
  destruct (decide (k = a)); [congruence|].
  destruct (decide (k = b)); [congruence|]. by apply IH.
Qed.

Lemma first_of_before (a b : Z) (k1 k2 : list Z) :
  b ∉ k1 -> first_of a b (k1 ++ a :: k2) = true.
Proof.
  induction k1 as [|k k1 IH]; intros Hb; simpl.
  - destruct (decide (a = a)); done.
  - apply not_elem_of_cons in Hb as [Hb1 Hb2].
    destruct (decide (k = a)); [done|].
    destruct (decide (k = b)); [congruence|]. by apply IH.
Qed.

Lemma first_of_fold_add_key (a b : Z) (os ks : list Z) :
  first_of a b (fold_left add_key os ks) =
  if decide ((a ∈ ks) \/ (b ∈ ks)) then first_of a b ks else first_of a b os.
Proof.
  revert ks. induction os as [|o os IH]; intros ks; simpl.
  - destruct (decide ((a ∈ ks) \/ (b ∈ ks))) as [H|H]; [done|].
    rewrite <- (app_nil_r ks). rewrite first_of_app_notin; [done|tauto|tauto].
  - rewrite IH.
    destruct (decide ((a ∈ ks) \/ (b ∈ ks))) as [H|H].
    + destruct (decide (o ∈ ks)) as [Ho|Ho].
      * rewrite add_key_in; [|done]. by rewrite decide_True.
      * rewrite add_key_notin; [|done].
        rewrite decide_True; [by apply first_of_app_in|].
        destruct H; [left|right]; apply elem_of_app; by left.
    + assert ((a ∉ ks) /\ (b ∉ ks)) as [Ha Hb] by tauto.
      destruct (decide (o = a)) as [->|Hoa].
      * rewrite add_key_notin; [|done].
        rewrite decide_True; [|left; apply elem_of_app; right; apply list_elem_of_here].
        by apply first_of_before.
      * destruct (decide (o = b)) as [->|Hob].
        -- rewrite add_key_notin; [|done].
           rewrite decide_True; [|right; apply elem_of_app; right; apply list_elem_of_here].
           rewrite first_of_app_notin; [|done|done]. simpl.
           destruct (decide (b = a)); [congruence|]. by rewrite decide_True.
        -- rewrite decide_False; [done|].
           unfold add_key. case_bool_decide; [tauto|].
           intros [Hx|Hx]; apply elem_of_app in Hx as [Hx|Hx]; try tauto;
             apply list_elem_of_singleton in Hx; congruence.
Qed.

Lemma group_by_owner_order (a b : Z) (ts : list Troop) :
  first_of a b (map fst (group_by_owner ts)) = arrives_first a b ts.
Proof.
  unfold group_by_owner, arrives_first.
  rewrite keys_group_fold, first_of_fold_add_key.
  destruct (decide _) as [[H|H]|H]; [by apply elem_of_nil in H ..|done].
Qed.

(** One step of the loop of [move_troops]. *)
Lemma move_troops_snoc (ts : list Troop) (t : Troop) :
  move_troops (ts ++ [t]) =
  let acc := move_troops ts in
  let t' := move_troop t in
  if travel_time t' =? 0 then (fst acc, add_to_battles t' (snd acc))
  else (fst acc ++ [t'], snd acc).
Proof. unfold move_troops. by rewrite fold_left_app. Qed.

Lemma arrivals_snoc (d : Z) (ts : list Troop) (t : Troop) :
  arrivals d (ts ++ [t]) =
  arrivals d ts ++
  (if decide (travel_time (move_troop t) = 0 /\ destination_factory t = d)
   then [move_troop t] else []).
Proof.
  unfold arrivals. rewrite map_app, !filter_app. f_equal. simpl.
  rewrite filter_cons, filter_nil.
  destruct (decide (travel_time (move_troop t) = 0)) as [H0|H0].
  - rewrite filter_cons, filter_nil. simpl.
    destruct (decide (destination_factory t = d)).
    + by rewrite decide_True.
    + rewrite decide_False; [done|tauto].
  - rewrite filter_nil. rewrite decide_False; [done|tauto].
Qed.

Lemma add_to_battles_spec (t : Troop) (battles : list (Z * list Troop)) :
  NoDup (map fst battles) ->
  NoDup (map fst (add_to_battles t battles))
  /\ forall d grp, (d, grp) ∈ add_to_battles t battles ->
       (d = destination_factory t /\
        ((exists grp0, (d, grp0) ∈ battles /\ grp = grp0 ++ [t])
         \/ ((d ∉ map fst battles) /\ grp = [t])))
       \/ (d <> destination_factory t /\ (d, grp) ∈ battles).
Proof.
  induction battles as [|[d0 g0] bs IH]; intros Hnd.
  - simpl. split; [apply NoDup_singleton|].
    intros d grp H. apply list_elem_of_singleton in H. inversion H; subst.
    left. split; [done|]. right. split; [apply not_elem_of_nil|done].
  - simpl in Hnd. apply NoDup_cons in Hnd as [Hd0 Hnd].
    destruct (IH Hnd) as [IH1 IH2]. clear IH. simpl.
    destruct (decide (d0 = destination_factory t)) as [->|Hne].
    + split; [simpl; by apply NoDup_cons|].
      intros d grp H. apply elem_of_cons in H as [H|H].
      * inversion H; subst. left. split; [done|]. left. exists g0.
        split; [apply list_elem_of_here|done].
      * right. split; [|by apply list_elem_of_further].
        intros ->. apply Hd0. apply list_elem_of_In, in_map_iff.
        exists (destination_factory t, grp). split; [done|by apply list_elem_of_In].
    + assert (forall x, x ∈ map fst (add_to_battles t bs) ->
                x = destination_factory t \/ x ∈ map fst bs) as Hkeys.
      { intros x Hx. apply list_elem_of_In, in_map_iff in Hx as [[d g] [<- Hin]].
        apply list_elem_of_In in Hin. destruct (IH2 _ _ Hin) as [[-> _]|[_ Hb]]; [by left|].
        right. apply list_elem_of_In, in_map_iff. exists (d, g).
        split; [done|by apply list_elem_of_In]. }
      split.
      * simpl. apply NoDup_cons. split; [|done].
        intros Hx. apply Hkeys in Hx as [Hx|Hx]; congruence.
      * intros d grp H. apply elem_of_cons in H as [H|H].
        -- inversion H; subst. right. split; [done|apply list_elem_of_here].
        -- destruct (IH2 _ _ H) as [[-> Hc]|[Hd Hb]].
           ++ left. split; [done|]. destruct Hc as [[grp0 [Hg ->]]|[Hn ->]].
              ** left. exists grp0. split; [by apply list_elem_of_further|done].
              ** right. split; [|done]. simpl. rewrite not_elem_of_cons.
                 split; [congruence|done].
           ++ right. split; [done|by apply list_elem_of_further].
Qed.

Lemma keys_add_to_battles (t : Troop) (battles : list (Z * list Troop)) :
  map fst (add_to_battles t battles) = add_key (map fst battles) (destination_factory t).
Proof.
  induction battles as [|[d0 g0] bs IH].
  - rewrite add_key_notin; [done|]. apply not_elem_of_nil.
  - cbn [add_to_battles map fst].
    destruct (decide (d0 = destination_factory t)) as [->|Hne].
    + rewrite add_key_in; [done|]. apply list_elem_of_here.
    + cbn [map fst]. rewrite IH.
      destruct (decide (destination_factory t ∈ map fst bs)) as [Hin|Hin].
      * rewrite !add_key_in; [done| by apply list_elem_of_further | done].
      * rewrite !add_key_notin; [done| | done].
        rewrite not_elem_of_cons. split; [congruence|done].
Qed.

Lemma add_key_elem (ks : list Z) (o x : Z) :
  x ∈ add_key ks o <-> x = o \/ x ∈ ks.
Proof.
  destruct (decide (o ∈ ks)) as [Hin|Hin].
  - rewrite add_key_in; [|done]. split; [tauto|]. intros [->|H]; done.
  - rewrite add_key_notin; [|done]. rewrite elem_of_app, list_elem_of_singleton. tauto.
Qed.

Lemma move_troops_spec (ts : list Troop) :
  fst (move_troops ts) = filter (fun t => travel_time t <> 0) (map move_troop ts)
  /\ NoDup (map fst (snd (move_troops ts)))
  /\ (forall d, d ∉ map fst (snd (move_troops ts)) -> arrivals d ts = [])
  /\ forall d grp, (d, grp) ∈ snd (move_troops ts) -> grp = arrivals d ts /\ grp <> [].
Proof.
  induction ts as [|t ts IH] using rev_ind.
  - split; [done|]. split; [apply NoDup_nil_2|]. split; [done|].
    intros d grp H. by apply elem_of_nil in H.
  - destruct IH as (IH1 & IH2 & IH3 & IH4).
    rewrite move_troops_snoc. cbv zeta.
    destruct (travel_time (move_troop t) =? 0) eqn:E.
    + apply Z.eqb_eq in E.
      destruct (add_to_battles_spec (move_troop t) _ IH2) as [A1 A2].
      cbn [fst snd]. split; [|split; [done|split]].
      * rewrite IH1, map_app, filter_app. simpl. rewrite filter_cons, filter_nil.
        rewrite decide_False; [|by intros H; apply H]. by rewrite app_nil_r.
      * intros d Hd. rewrite arrivals_snoc.
        rewrite keys_add_to_battles, add_key_elem in Hd. simpl in Hd.
        rewrite decide_False; [|intros [_ Heq]; apply Hd; left; by rewrite <- Heq].
        rewrite app_nil_r. apply IH3. tauto.
      * intros d grp H. rewrite arrivals_snoc.
        destruct (A2 _ _ H) as [[-> Hc]|[Hd Hb]].
        -- rewrite decide_True; [|done].
           destruct Hc as [[grp0 [Hg ->]]|[Hn ->]].
           ++ destruct (IH4 _ _ Hg) as [-> _]. split; [done|]. by destruct (arrivals _ ts).
           ++ rewrite (IH3 _ Hn). done.
        -- rewrite decide_False; [|intros [_ Heq]; apply Hd; by rewrite <- Heq].
           rewrite app_nil_r. by apply IH4.
    + apply Z.eqb_neq in E. cbn [fst snd]. split; [|split; [done|split]].
      * rewrite IH1, map_app, filter_app. simpl. rewrite filter_cons, filter_nil.
        by rewrite decide_True.
      * intros d Hd. rewrite arrivals_snoc, decide_False; [|tauto].
        rewrite app_nil_r. by apply IH3.
      * intros d grp H. rewrite arrivals_snoc, decide_False; [|tauto].
        rewrite app_nil_r. by apply IH4.
Qed.

(** C10.  A battle among several owners is a function of the battle group:
    the survivor is the head of the stable descending sort, every other
    owner is at most as strong, and an owner exactly as strong as the
    survivor has its first troop later in the group than the survivor's
    first troop.  The group of a destination lists the arriving troops in
    the order of the active troop list. *)
Theorem tie_goes_to_first_arrival (ts : list Troop) (w s : Z) (losers : list (Z * Z)) :
  sorted_desc (group_by_owner ts) = (w, s) :: losers ->
  losers <> [] ->
  battle_among (group_by_owner ts) = [(w, Z.max 0 (subtract_losers s losers))]
  /\ (forall o s', (o, s') ∈ losers ->
        s' <= s /\ (s' = s -> arrives_first w o ts = true))
  /\ (forall active d grp,
        (d, grp) ∈ snd (move_troops active) -> grp = arrivals d active).
Proof.
  intros Hs Hl. split; [|split].
  - rewrite subtract_losers_sum. by apply battle_among_multi.
  - intros o s' Hin.
    destruct (sorted_desc_head _ _ _ Hs) as (l1 & l2 & Hg & Hl1 & Hl2).
    pose proof (group_by_owner_NoDup ts) as Hnd.
    assert (NoDup (w :: map fst losers)) as Hnd'.
    { change (NoDup (map fst ((w, s) :: losers))). rewrite <- Hs.
      by rewrite (sorted_desc_perm (group_by_owner ts)). }
    apply NoDup_cons in Hnd' as [Hw _].
    assert (o <> w) as How.
    { intros ->. apply Hw. apply list_elem_of_In, in_map_iff. exists (w, s').
      split; [done|by apply list_elem_of_In]. }
    assert ((o, s') ∈ group_by_owner ts) as Hing.
    { rewrite <- (sorted_desc_perm (group_by_owner ts)), Hs. by apply list_elem_of_further. }
    rewrite Hg in Hing, Hnd. rewrite map_app in Hnd. simpl in Hnd.
    apply NoDup_app in Hnd as (_ & Hdisj & _).
    apply elem_of_app in Hing as [Hing|Hing].
    + rewrite Forall_forall in Hl1. apply Hl1 in Hing. simpl in Hing.
      split; [lia|]. intros ->. lia.
    + apply elem_of_cons in Hing as [Hing|Hing]; [congruence|].
      split.
      * rewrite Forall_forall in Hl2. by apply Hl2 in Hing.
      * intros _. rewrite <- group_by_owner_order, Hg, map_app. simpl.
        apply first_of_before. intros Ho1. apply (Hdisj o Ho1).
        apply list_elem_of_further, list_elem_of_In, in_map_iff. exists (o, s').
        split; [done|by apply list_elem_of_In].
  - intros active d grp H. by apply (move_troops_spec active).
Qed.

(** Owners 2 and 1 both bring 5 cyborgs; owner 2 arrived first. *)
Lemma tie_goes_to_first_arrival_witness :
  battle_among (group_by_owner [mkTroop 2 5 1 0 0; mkTroop 1 3 0 0 0; mkTroop 1 2 0 0 0])
    = [(2, Z.max 0 (subtract_losers 5 [(1, 5)]))]
  /\ (forall o s', (o, s') ∈ [(1, 5)] ->
        s' <= 5 /\
        (s' = 5 ->
         arrives_first 2 o [mkTroop 2 5 1 0 0; mkTroop 1 3 0 0 0; mkTroop 1 2 0 0 0]
           = true))
  /\ (forall active d grp,
        (d, grp) ∈ snd (move_troops active) -> grp = arrivals d active).
Proof.
  apply (tie_goes_to_first_arrival
           [mkTroop 2 5 1 0 0; mkTroop 1 3 0 0 0; mkTroop 1 2 0 0 0] 2 5 [(1, 5)]).
  - reflexivity.
  - discriminate.
Defined.

(** ** Frame of a battle *)

Lemma combatants_get_None (k : Z) (c : list (Z * Z)) :
  combatants_get k c = None -> k ∉ map fst c.
Proof.
  induction c as [|[o s] c IH]; simpl; intros H; [apply not_elem_of_nil|].
  destruct (decide (o = k)); [done|].
  rewrite not_elem_of_cons. split; [congruence|by apply IH].
Qed.

Lemma group_by_owner_keys (k : Z) (ts : list Troop) :
  k ∈ map fst (group_by_owner ts) -> k ∈ map troop_owner ts.
Proof.
  intros Hk. destruct (decide (k ∈ map troop_owner ts)) as [H|H]; [done|].
  exfalso. pose proof (group_by_owner_get ts k) as Hg.
  rewrite bool_decide_eq_false_2 in Hg; [|done].
  by apply combatants_get_None in Hg.
Qed.

Lemma max_item_in (x : Z * Z) (l : list (Z * Z)) : max_item x l ∈ x :: l.
Proof.
  revert x. induction l as [|y l IH]; intros x; simpl; [apply list_elem_of_here|].
  specialize (IH (if snd x <? snd y then y else x)).
  apply elem_of_cons in IH as [IH|IH].
  - rewrite IH. destruct (snd x <? snd y);
      [apply list_elem_of_further, list_elem_of_here | apply list_elem_of_here].
  - by do 2 apply list_elem_of_further.
Qed.

Lemma battle_among_keys (p : Z * Z) (c : list (Z * Z)) :
  p ∈ battle_among c -> fst p ∈ map fst c.
Proof.
  unfold battle_among. destruct (1 <? length c)%nat.
  - destruct (sorted_desc c) as [|[w s] losers] eqn:E; intros H.
    + by apply elem_of_nil in H.
    + apply list_elem_of_singleton in H. subst p. simpl.
      rewrite <- (sorted_desc_perm c), E. simpl. apply list_elem_of_here.
  - intros H. apply list_elem_of_In, in_map, list_elem_of_In, H.
Qed.

Lemma battle_among_nonempty (c : list (Z * Z)) : c <> [] -> battle_among c <> [].
Proof.
  intros Hc. unfold battle_among. destruct (1 <? length c)%nat; [|done].
  destruct (sorted_desc c) as [|[w s] losers] eqn:E; [|done].
  apply (f_equal length) in E. rewrite sorted_desc_length in E.
  destruct c; [done|discriminate].
Qed.

Lemma group_by_owner_nonempty (ts : list Troop) : ts <> [] -> group_by_owner ts <> [].
Proof.
  destruct ts as [|t ts]; [done|]. intros _ H.
  pose proof (group_by_owner_get (t :: ts) (troop_owner t)) as Hg.
  rewrite H in Hg. rewrite bool_decide_eq_true_2 in Hg; [done|].
  simpl. apply list_elem_of_here.
Qed.

Lemma factory_at_fail (g : Game) (i : Z) :
  py_index (length (factories g)) i = None ->
  factory_at i g = (inl IndexError, g).
Proof. intros Hi. unfold factory_at, bind, get. by rewrite Hi. Qed.

(** What a battle does to the game, whatever its outcome. *)
Lemma resolve_battle_outcome (d : Z) (ts : list Troop) (g : Game) :
  (exists e, resolve_battle d ts g = (inl e, g)
             /\ (ts <> [] -> py_index (length (factories g)) d = None))
  \/ exists i f f' r,
       py_index (length (factories g)) d = Some i
       /\ factories g !! i = Some f
       /\ resolve_battle d ts g =
            (inr tt, mkGame (<[i := f']> (factories g)) (troops g) (bombs g)
                            (distances g) r)
       /\ production_disabled f' = production_disabled f
       /\ ((owner f' = owner f /\ production f' = production f)
           \/ owner f' ∈ map troop_owner ts).
Proof.
  destruct (py_index (length (factories g)) d) as [i|] eqn:Hi.
  2:{ left. exists IndexError. split; [|done].
      unfold resolve_battle, bind. by rewrite (factory_at_fail g d Hi). }
  destruct (factories g !! i) as [f|] eqn:Hf.
  2:{ apply py_index_lt in Hi. apply lookup_ge_None in Hf. lia. }
  unfold resolve_battle, bind. rewrite (factory_at_ok g d i f Hi Hf).
  unfold raise. simpl.
  destruct (combatants_get (owner f) (battle_among (group_by_owner ts))) as [s|] eqn:Hget.
  { right. exists i, f, (set_cyborgs (cyborgs f + s) f), (random g).
    unfold update_factory, modify, set_factories.
    rewrite (alter_lookup_insert _ _ _ f Hf). repeat split; try done. by left. }
  destruct (battle_among (group_by_owner ts)) as [|x l] eqn:Hb.
  - destruct (cyborgs f <? 0) eqn:E.
    + left. exists ValueError. split; [done|]. intros Hts. exfalso.
      by apply (battle_among_nonempty (group_by_owner ts)); [apply group_by_owner_nonempty|].
    + right. exists i, f, (set_cyborgs (cyborgs f - 0) f), (random g).
      unfold update_factory, modify, set_factories.
      rewrite (alter_lookup_insert _ _ _ f Hf). repeat split; try done. by left.
  - destruct (cyborgs f <? snd (max_item x l)) eqn:E.
    + right.
      exists i, f,
        (mkFactory (fst (max_item x l)) (snd (max_item x l) - cyborgs f)
                   (randint_value 0 3 (random g)) (production_disabled f)),
        (rng_next (random g)).
      unfold update_factory, modify, randint, set_factories, set_random. simpl.
      rewrite !list_alter_alter_eq, (alter_lookup_insert _ _ _ f Hf).
      repeat split; try done. right. simpl.
      apply group_by_owner_keys, battle_among_keys. rewrite Hb. apply max_item_in.
    + right. exists i, f, (set_cyborgs (cyborgs f - snd (max_item x l)) f), (random g).
      unfold update_factory, modify, set_factories.
      rewrite (alter_lookup_insert _ _ _ f Hf). repeat split; try done. by left.
Qed.

(** ** Bombs and the production counter *)

Lemma elsewhere_spec (i len : nat) (d : Z) :
  elsewhere i len d = true -> exists j, py_index len d = Some j /\ j <> i.
Proof.
  unfold elsewhere. destruct (py_index len d) as [j|]; [|done].
  intros H. exists j. split; [done|]. intros ->.
  by rewrite Nat.eqb_refl in H.
Qed.

Lemma resolve_bomb_outcome (b : Bomb) (g : Game) :
  (py_index (length (factories g)) (bomb_destination_factory b) = None
   /\ resolve_bomb b g = (inl IndexError, g))
  \/ exists i f,
       py_index (length (factories g)) (bomb_destination_factory b) = Some i
       /\ factories g !! i = Some f
       /\ resolve_bomb b g =
            (inr tt,
             set_factories
               (<[i := mkFactory (owner f) (cyborgs f - Z.max 10 (cyborgs f / 2))
                                 (production f) 5]> (factories g)) g).
Proof.
  destruct (py_index (length (factories g)) (bomb_destination_factory b)) as [i|] eqn:Hi.
  - right. destruct (factories g !! i) as [f|] eqn:Hf.
    + exists i, f. repeat split; try done.
      unfold resolve_bomb, bind. rewrite (factory_at_ok g _ i f Hi Hf). simpl.
      unfold update_factory, modify, set_factories. simpl.
      rewrite list_alter_alter_eq.
      f_equal. f_equal. by rewrite (alter_lookup_insert _ _ _ f Hf).
    + apply py_index_lt in Hi. apply lookup_ge_None in Hf. lia.
  - left. split; [done|]. unfold resolve_bomb, bind. by rewrite factory_at_fail.
Qed.

(** A battle away from factory [i] succeeds and leaves factory [i] alone. *)
Lemma resolve_battle_elsewhere (i : nat) (d : Z) (ts : list Troop) (g : Game) :
  ts <> [] ->
  elsewhere i (length (factories g)) d = true ->
  exists g', resolve_battle d ts g = (inr tt, g')
    /\ factories g' !! i = factories g !! i
    /\ length (factories g') = length (factories g)
    /\ troops g' = troops g /\ bombs g' = bombs g.
Proof.
  intros Hts He. apply elsewhere_spec in He as (j & Hj & Hne).
  destruct (resolve_battle_outcome d ts g) as [(e & _ & Hn)|(k & f & f' & r & Hk & Hf & Hr & _)].
  - rewrite Hn in Hj; done.
  - rewrite Hr. eexists. split; [done|]. simpl.
    rewrite Hj in Hk. inversion Hk; subst k.
    rewrite list_lookup_insert_ne, length_insert; done.
Qed.

Lemma resolve_battles_elsewhere (i : nat) (battles : list (Z * list Troop)) (g : Game) :
  Forall (fun p => snd p <> [] /\ elsewhere i (length (factories g)) (fst p) = true)
         battles ->
  exists g', resolve_battles battles g = (inr tt, g')
    /\ factories g' !! i = factories g !! i
    /\ length (factories g') = length (factories g)
    /\ troops g' = troops g /\ bombs g' = bombs g.
Proof.
  revert g. induction battles as [|[d grp] bs IH]; intros g HF.
  - exists g. done.
  - apply Forall_cons in HF as [[Hgrp Hd] HF]. simpl in Hgrp, Hd.
    destruct (resolve_battle_elsewhere i d grp g Hgrp Hd) as (g1 & H1 & Hi1 & Hl1 & Ht1 & Hb1).
    destruct (IH g1) as (g2 & H2 & Hi2 & Hl2 & Ht2 & Hb2).
    { rewrite Hl1. exact HF. }
    exists g2. simpl. unfold bind. rewrite H1, H2.
    repeat split; congruence.
Qed.

Lemma update_troops_quiet (i : nat) (g : Game) :
  Forall (fun t => elsewhere i (length (factories g)) (destination_factory t) = true)
         (troops g) ->
  exists g', update_troops g = (inr tt, g')
    /\ factories g' !! i = factories g !! i
    /\ length (factories g') = length (factories g)
    /\ bombs g' = bombs g
    /\ Forall (fun t => elsewhere i (length (factories g)) (destination_factory t) = true)
              (troops g').
Proof.
  intros HF.
  destruct (move_troops_spec (troops g)) as (Hkept & _ & _ & Hgroups).
  assert (Forall (fun t => elsewhere i (length (factories g)) (destination_factory t) = true)
                 (map move_troop (troops g))) as HF'.
  { apply Forall_fmap. eapply Forall_impl; [exact HF|]. done. }
  destruct (resolve_battles_elsewhere i (snd (move_troops (troops g)))
              (set_troops (fst (move_troops (troops g))) g))
    as (g' & Hr & Hi & Hl & Ht & Hb).
  { apply Forall_forall. intros [d grp] Hin. simpl.
    destruct (Hgroups d grp Hin) as [Hgrp Hne]. split; [done|].
    destruct grp as [|t grp']; [done|].
    assert (t ∈ arrivals d (troops g)) as Hta by (rewrite <- Hgrp; apply list_elem_of_here).
    unfold arrivals in Hta. apply list_elem_of_filter in Hta as [Hd Hta].
    apply list_elem_of_filter in Hta as [_ Hta].
    rewrite Forall_forall in HF'. rewrite <- Hd. by apply HF'. }
  exists g'. unfold update_troops, bind, get, modify. rewrite Hr.
  split; [done|]. simpl in *. repeat split; try done.
  rewrite Ht, Hkept. apply Forall_forall. intros t Hin.
  apply list_elem_of_filter in Hin as [_ Hin]. rewrite Forall_forall in HF'. by apply HF'.
Qed.

Lemma update_bombs_loop_quiet (i : nat) (snapshot kept : list Bomb) (g : Game) :
  Forall (fun b => elsewhere i (length (factories g)) (bomb_destination_factory b) = true)
         snapshot ->
  Forall (fun b => elsewhere i (length (factories g)) (bomb_destination_factory b) = true)
         kept ->
  bombs g = kept ++ snapshot ->
  exists g', update_bombs_loop kept snapshot g = (inr tt, g')
    /\ factories g' !! i = factories g !! i
    /\ length (factories g') = length (factories g)
    /\ troops g' = troops g
    /\ Forall (fun b => elsewhere i (length (factories g)) (bomb_destination_factory b) = true)
              (bombs g').
Proof.
  revert kept g. induction snapshot as [|b rest IH]; intros kept g Hs Hk Hb.
  - exists g. rewrite app_nil_r in Hb. rewrite Hb. done.
  - apply Forall_cons in Hs as [Hb0 Hs]. simpl. unfold bind, modify.
    destruct (bomb_travel_time b - 1 =? 0) eqn:E.
    + destruct (resolve_bomb_outcome (move_bomb b) (set_bombs (kept ++ move_bomb b :: rest) g))
        as [[Hn _]|(j & f & Hj & Hf & Hr)].
      { simpl in Hn. apply elsewhere_spec in Hb0 as (j & Hj & _). congruence. }
      rewrite Hr. simpl in Hj.
      apply elsewhere_spec in Hb0 as (j' & Hj' & Hne). rewrite Hj' in Hj.
      inversion Hj; subst j'.
      match goal with |- context [update_bombs_loop kept rest ?g1] =>
        destruct (IH kept g1) as (g' & Hl & Hi' & Hlen & Ht & HF) end.
      { simpl. by rewrite length_insert. }
      { simpl. by rewrite length_insert. }
      { done. }
      exists g'. rewrite Hl. simpl in *.
      rewrite list_lookup_insert_ne in Hi' by done.
      rewrite length_insert in Hlen, HF. done.
    + match goal with |- context [update_bombs_loop (kept ++ [move_bomb b]) rest ?g1] =>
        destruct (IH (kept ++ [move_bomb b]) g1) as (g' & Hl & Hi' & Hlen & Ht & HF) end.
      { done. }
      { simpl. apply Forall_app. split; [done|]. by apply Forall_singleton. }
      { simpl. by rewrite <- app_assoc. }
      exists g'. rewrite Hl. done.
Qed.

Lemma update_quiet (i : nat) (g : Game) (f : Factory) :
  factories g !! i = Some f ->
  quiet_at i g ->
  exists g', update g = (inr tt, g')
    /\ factories g' !! i = Some (produce f)
    /\ length (factories g') = length (factories g)
    /\ quiet_at i g'.
Proof.
  intros Hf [Ht Hb].
  destruct (update_troops_quiet i g Ht) as (g1 & H1 & Hi1 & Hl1 & Hb1 & Ht1).
  destruct (update_bombs_loop_quiet i (bombs g1) [] g1) as (g2 & H2 & Hi2 & Hl2 & Ht2 & Hb2).
  { rewrite Hl1, Hb1. exact Hb. }
  { constructor. }
  { done. }
  exists (set_factories (map produce (factories g2)) g2).
  unfold update, bind. rewrite H1.
  unfold update_bombs, bind, get. rewrite H2.
  unfold produce_all, modify. split; [done|]. simpl.
  split; [|split].
  - change (map produce (factories g2)) with (produce <$> factories g2).
    rewrite list_lookup_fmap, Hi2, Hi1, Hf. done.
  - rewrite length_map. congruence.
  - unfold quiet_at. simpl. rewrite length_map, Hl2, Hl1.
    rewrite Hl1 in Hb2. split; [by rewrite Ht2|done].
Qed.

Lemma updates_quiet (k : nat) (i : nat) (g : Game) (f : Factory) :
  factories g !! i = Some f ->
  quiet_at i g ->
  exists g', updates k g = (inr tt, g')
    /\ factories g' !! i = Some (Nat.iter k produce f)
    /\ quiet_at i g'.
Proof.
  revert g f. induction k as [|k IH]; intros g f Hf Hq.
  - exists g. done.
  - destruct (update_quiet i g f Hf Hq) as (g1 & H1 & Hf1 & _ & Hq1).
    destruct (IH g1 (produce f) Hf1 Hq1) as (g2 & H2 & Hf2 & Hq2).
    exists g2. simpl updates. unfold bind. rewrite H1, H2.
    split; [done|]. split; [|done]. rewrite Hf2. f_equal.
    clear. induction k; simpl; [done|]. by rewrite IHk.
Qed.

Lemma produce_disabled (f : Factory) :
  0 < production_disabled f ->
  produce f = set_production_disabled (production_disabled f - 1) f.
Proof.
  intros H. unfold produce.
  assert ((production_disabled f =? 0) = false) as -> by lia.
  rewrite andb_false_r. by assert ((0 <? production_disabled f) = true) as -> by lia.
Qed.

Lemma iter_produce_disabled (k : nat) (f : Factory) :
  Z.of_nat k <= production_disabled f ->
  Nat.iter k produce f = set_production_disabled (production_disabled f - Z.of_nat k) f.
Proof.
  induction k as [|k IH]; intros H.
  - simpl. destruct f; unfold set_production_disabled; simpl. f_equal. lia.
  - simpl. rewrite IH by lia. rewrite produce_disabled by (simpl; lia).
    unfold set_production_disabled. simpl. f_equal. lia.
Qed.

(** C9.  From the state a bomb resolution leaves, at a factory that no troop
    or bomb in flight is headed for: the counter is 5; each of the next five
    calls of [update] lowers it by one and changes nothing else of the
    factory, so that it is 0 after the fifth; the sixth call adds the
    production rate to the cyborgs. *)
Theorem bomb_disables_five_turns (g0 g : Game) (b : Bomb) (i : nat) (f : Factory) :
  py_index (length (factories g0)) (bomb_destination_factory b) = Some i ->
  resolve_bomb b g0 = (inr tt, g) ->
  factories g !! i = Some f ->
  owner f <> 0 \/ production f = 0 ->
  quiet_at i g ->
  production_disabled f = 5
  /\ (forall k, (k <= 5)%nat ->
        exists gk, updates k g = (inr tt, gk)
          /\ factories gk !! i = Some (set_production_disabled (5 - Z.of_nat k) f))
  /\ exists g6, updates 6 g = (inr tt, g6)
       /\ factories g6 !! i =
            Some (mkFactory (owner f) (cyborgs f + production f) (production f) 0).
Proof.
  intros Hi Hr Hf Ho Hq.
  assert (production_disabled f = 5) as Hpd.
  { destruct (resolve_bomb_outcome b g0) as [[Hn _]|(j & f0 & Hj & Hf0 & Hr')]; [congruence|].
    rewrite Hr' in Hr. inversion Hr; subst g. simpl in Hf.
    rewrite Hi in Hj. inversion Hj; subst j.
    rewrite list_lookup_insert_eq in Hf by (by eapply lookup_lt_Some).
    by inversion Hf. }
  split; [done|]. split.
  - intros k Hk. destruct (updates_quiet k i g f Hf Hq) as (gk & Hu & Hfk & _).
    exists gk. split; [done|]. rewrite Hfk, iter_produce_disabled by lia.
    by rewrite Hpd.
  - destruct (updates_quiet 6 i g f Hf Hq) as (g6 & Hu & Hf6 & _).
    exists g6. split; [done|]. rewrite Hf6. f_equal.
    change (Nat.iter 6 produce f) with (produce (Nat.iter 5 produce f)).
    rewrite iter_produce_disabled by lia. rewrite Hpd.
    unfold produce, set_production_disabled. simpl.
    destruct (owner f =? 0) eqn:E; simpl.
    + destruct Ho as [Ho|Ho]; [lia|]. rewrite Ho. f_equal. lia.
    + done.
Qed.

(** The bombed factory of the specification's example, with 2 cyborgs left. *)
Lemma bomb_disables_five_turns_witness :
  production_disabled (mkFactory 1 2 2 5) = 5
  /\ (forall k, (k <= 5)%nat ->
        exists gk,
          updates k (snd (resolve_bomb (mkBomb 2 1 0 0) example_game)) = (inr tt, gk)
          /\ factories gk !! 0%nat =
               Some (set_production_disabled (5 - Z.of_nat k) (mkFactory 1 2 2 5)))
  /\ exists g6,
       updates 6 (snd (resolve_bomb (mkBomb 2 1 0 0) example_game)) = (inr tt, g6)
       /\ factories g6 !! 0%nat = Some (mkFactory 1 (2 + 2) 2 0).
Proof.
  apply (bomb_disables_five_turns example_game
           (snd (resolve_bomb (mkBomb 2 1 0 0) example_game))
           (mkBomb 2 1 0 0) 0 (mkFactory 1 2 2 5)).
  - reflexivity.
  - reflexivity.
  - reflexivity.
  - left. simpl. lia.
  - split; constructor.
Defined.

(** ** Conquest and production in one call *)

Lemma Forall2_same_rate_refl (fs : list Factory) : Forall2 same_rate fs fs.
Proof. apply Forall_Forall2_diag, Forall_forall. by intros f _. Qed.

Lemma Forall2_same_rate_trans (l1 l2 l3 : list Factory) :
  Forall2 same_rate l1 l2 -> Forall2 same_rate l2 l3 -> Forall2 same_rate l1 l3.
Proof.
  apply Forall2_trans. intros x y z [H1 H2] [H3 H4].
  split; congruence.
Qed.

Lemma Forall2_same_rate_insert (fs : list Factory) (i : nat) (f f' : Factory) :
  fs !! i = Some f -> same_rate f f' -> Forall2 same_rate fs (<[i := f']> fs).
Proof.
  intros Hf HR. rewrite <- (list_insert_id fs i f Hf) at 1.
  apply Forall2_insert; [apply Forall2_same_rate_refl|done].
Qed.

Lemma update_bombs_loop_rates (snapshot kept : list Bomb) (g : Game)
    (res : exn + unit) (g' : Game) :
  update_bombs_loop kept snapshot g = (res, g') ->
  troops g' = troops g /\ Forall2 same_rate (factories g) (factories g').
Proof.
  revert kept g. induction snapshot as [|b rest IH]; intros kept g.
  - intros [= <- <-]. split; [done|apply Forall2_same_rate_refl].
  - simpl. unfold bind, modify.
    destruct (bomb_travel_time b - 1 =? 0).
    + destruct (resolve_bomb_outcome (move_bomb b) (set_bombs (kept ++ move_bomb b :: rest) g))
        as [[_ Hr]|(j & f & Hj & Hf & Hr)]; rewrite Hr.
      * intros [= <- <-]. split; [done|apply Forall2_same_rate_refl].
      * intros H. apply IH in H as [Ht HF]. simpl in *. split; [done|].
        eapply Forall2_same_rate_trans; [|exact HF].
        by apply (Forall2_same_rate_insert _ _ f).
    + intros H. by apply IH in H.
Qed.

Lemma update_bombs_rates (g : Game) (res : exn + unit) (g' : Game) :
  update_bombs g = (res, g') ->
  troops g' = troops g /\ Forall2 same_rate (factories g) (factories g').
Proof. unfold update_bombs, bind, get. apply update_bombs_loop_rates. Qed.

(** C1, amended.  A factory conquered by a non-neutral owner in the battle
    phase of [update], and whose production is not disabled when the bomb
    phase ends, receives the production rate drawn at the conquest in the
    production phase of that same call. *)
Theorem conquest_produces_same_turn (g g1 g2 : Game) (i : nat) (f0 f1 f2 : Factory) :
  update_troops g = (inr tt, g1) ->
  update_bombs g1 = (inr tt, g2) ->
  factories g !! i = Some f0 ->
  factories g1 !! i = Some f1 ->
  factories g2 !! i = Some f2 ->
  owner f1 <> owner f0 ->
  owner f1 <> 0 ->
  production_disabled f2 = 0 ->
  exists g3,
    update g = (inr tt, g3)
    /\ factories g3 !! i =
         Some (mkFactory (owner f1) (cyborgs f2 + production f1) (production f1) 0).
Proof.
  intros H1 H2 Hf0 Hf1 Hf2 Hconq Hown Hpd.
  destruct (update_bombs_rates g1 _ g2 H2) as [_ HF].
  destruct (Forall2_lookup_lr _ _ _ _ _ _ HF Hf1 Hf2) as [Ho Hp].
  exists (set_factories (map produce (factories g2)) g2).
  unfold update, bind. rewrite H1, H2. unfold produce_all, modify.
  split; [done|]. simpl.
  change (map produce (factories g2)) with (produce <$> factories g2).
  rewrite list_lookup_fmap, Hf2. simpl. f_equal.
  unfold produce. rewrite Hpd, Ho.
  assert ((owner f1 =? 0) = false) as -> by lia. simpl.
  unfold set_cyborgs. by rewrite Ho, Hp, Hpd.
Qed.

(** C1 as stated fails: it is not true that the cyborgs of a factory
    conquered during the battle phase are left alone by the production phase
    of the same call.  A neutral factory with 3 cyborgs taken by 7 cyborgs of
    player 1 holds 4 after the battle and 6 when [update] returns, the new
    rate being 2. *)
Lemma conquest_then_production_same_call :
  ~ (forall (g g1 g2 g3 : Game) (i : nat) (f0 f1 f2 f3 : Factory),
       update_troops g = (inr tt, g1) ->
       update_bombs g1 = (inr tt, g2) ->
       update g = (inr tt, g3) ->
       factories g !! i = Some f0 ->
       factories g1 !! i = Some f1 ->
       factories g2 !! i = Some f2 ->
       factories g3 !! i = Some f3 ->
       owner f1 <> owner f0 ->
       cyborgs f3 = cyborgs f2).
Proof.
  intros H.
  pose (r := mkRng (fun _ => 2) 0).
  assert (6 = 4) as Habs; [|discriminate Habs].
  apply (H (conquest_game r)
           (mkGame [mkFactory 1 4 2 0] [] [] ∅ (rng_next r))
           (mkGame [mkFactory 1 4 2 0] [] [] ∅ (rng_next r))
           (mkGame [mkFactory 1 6 2 0] [] [] ∅ (rng_next r))
           0%nat (mkFactory 0 3 0 0) (mkFactory 1 4 2 0) (mkFactory 1 4 2 0)
           (mkFactory 1 6 2 0)); try reflexivity.
  simpl. lia.
Qed.

(** The conquest above, as an instance of the amended statement. *)
Lemma conquest_produces_same_turn_witness :
  exists g3,
    update (conquest_game (mkRng (fun _ => 2) 0)) = (inr tt, g3)
    /\ factories g3 !! 0%nat = Some (mkFactory 1 (4 + 2) 2 0).
Proof.
  apply (conquest_produces_same_turn
           (conquest_game (mkRng (fun _ => 2) 0))
           (mkGame [mkFactory 1 4 2 0] [] [] ∅ (rng_next (mkRng (fun _ => 2) 0)))
           (mkGame [mkFactory 1 4 2 0] [] [] ∅ (rng_next (mkRng (fun _ => 2) 0)))
           0%nat (mkFactory 0 3 0 0) (mkFactory 1 4 2 0) (mkFactory 1 4 2 0));
    try reflexivity; simpl; lia.
Defined.

(** ** Outcomes of the commands *)

Lemma factory_at_outcome (i : Z) (g : Game) :
  factory_at i g = (inl IndexError, g)
  \/ exists n f, py_index (length (factories g)) i = Some n
       /\ factories g !! n = Some f /\ factory_at i g = (inr (n, f), g).
Proof.
  destruct (py_index (length (factories g)) i) as [n|] eqn:Hi.
  - destruct (factories g !! n) as [f|] eqn:Hf.
    + right. exists n, f. repeat split; try done. by apply factory_at_ok.
    + apply py_index_lt in Hi. apply lookup_ge_None in Hf. lia.
  - left. by apply factory_at_fail.
Qed.

Lemma produce_same_rate (f : Factory) : same_rate f (produce f).
Proof.
  unfold produce.
  destruct (negb (owner f =? 0) && (production_disabled f =? 0)); [done|].
  destruct (0 <? production_disabled f); done.
Qed.

Lemma send_troop_outcome (o n src dst : Z) (g : Game) :
  (exists e, send_troop o n src dst g = (inl e, g))
  \/ exists i f, factories g !! i = Some f
       /\ send_troop o n src dst g =
            (inr tt,
             mkGame (<[i := set_cyborgs (cyborgs f - n) f]> (factories g))
                    (troops g ++ [mkTroop o n src dst
                                    (distance_get (distances g) src dst)])
                    (bombs g) (distances g) (random g)).
Proof.
  destruct (factory_at_outcome src g) as [Hf|(i & f & Hi & Hf & Hat)].
  - left. exists IndexError. unfold send_troop, bind. by rewrite Hf.
  - destruct (decide (owner f = o)) as [Ho|Ho].
    + right. exists i, f. split; [done|].
      unfold send_troop, bind. rewrite Hat. simpl.
      destruct (decide (owner f <> o)); [contradiction|].
      unfold get, modify. simpl.
      rewrite (factory_at_ok _ _ i f); [| exact Hi | exact Hf]. simpl.
      unfold update_factory, modify, set_factories, set_troops. simpl.
      by rewrite (alter_lookup_insert _ _ _ f Hf).
    + left. exists ValueError. unfold send_troop, bind. rewrite Hat. simpl.
      destruct (decide (owner f <> o)); [done|contradiction].
Qed.

Lemma send_bomb_outcome (o src dst : Z) (g : Game) :
  (exists e, send_bomb o src dst g = (inl e, g))
  \/ send_bomb o src dst g =
       (inr tt,
        set_bombs (bombs g ++ [mkBomb o src dst (distance_get (distances g) src dst)]) g).
Proof.
  destruct (factory_at_outcome src g) as [Hf|(i & f & Hi & Hf & Hat)].
  - left. exists IndexError. unfold send_bomb, bind. by rewrite Hf.
  - destruct (decide (owner f = o)) as [Ho|Ho].
    + right. unfold send_bomb, bind. rewrite Hat. simpl.
      destruct (decide (owner f <> o)); [contradiction|done].
    + left. exists ValueError. unfold send_bomb, bind. rewrite Hat. simpl.
      destruct (decide (owner f <> o)); [done|contradiction].
Qed.

Lemma append_neutral_factories_ok (k : nat) (g : Game)
    (res : exn + unit) (g' : Game) :
  init_ok g -> append_neutral_factories k g = (res, g') -> init_ok g'.
Proof.
  revert g. induction k as [|k IH]; intros g Hg.
  - intros [= <- <-]. done.
  - simpl. unfold bind, randint, Factory_init, bind, ret, modify. simpl.
    intros H. apply IH in H; [done|].
    destruct Hg as [HF Ht]. split; [|done]. simpl.
    apply Forall_app. split; [done|]. apply Forall_singleton. by split.
Qed.

Lemma assign_player_ok (i o : Z) (g : Game) (res : exn + unit) (g' : Game) :
  o <> 0 -> init_ok g -> assign_player i o g = (res, g') -> init_ok g'.
Proof.
  intros Ho [HF Ht]. unfold assign_player, bind, randint.
  set (g1 := set_random (rng_next (random g)) g).
  destruct (factory_at_outcome i g1) as [Hf|(n & f & Hi & Hf & Hat)].
  - rewrite Hf. intros [= <- <-]. done.
  - rewrite Hat. unfold update_factory, modify. subst g1. simpl in Hi, Hf. simpl.
    assert (py_index (length (alter (set_owner o) n (factories g))) i = Some n) as Hi'.
    { by rewrite length_alter. }
    rewrite (factory_at_ok _ i n (set_owner o f)); [|exact Hi'|].
    2:{ simpl. by rewrite list_lookup_alter_eq, Hf. }
    simpl. intros [= <- <-]. split; [|exact Ht]. simpl.
    rewrite list_alter_alter_eq, (alter_lookup_insert _ _ _ f Hf).
    apply Forall_insert; [done|]. split; [intros Ho'; simpl in Ho'; congruence|]. simpl.
    by destruct (Forall_lookup_1 _ _ _ _ HF Hf).
Qed.

Lemma initialize_distances_loop_frame (fuel : nat) (n l : Z) (links : gset (Z * Z))
    (g : Game) (res : exn + gset (Z * Z)) (g' : Game) :
  initialize_distances_loop fuel n l links g = (res, g') ->
  factories g' = factories g /\ troops g' = troops g /\ bombs g' = bombs g.
Proof.
  revert links g. induction fuel as [|fuel IH]; intros links g; simpl.
  - destruct (Z.of_nat (size links) <? 2 * l); intros [= <- <-]; done.
  - destruct (Z.of_nat (size links) <? 2 * l); [|intros [= <- <-]; done].
    unfold bind, sample2. destruct (n <? 2); [intros [= <- <-]; done|].
    unfold bind, randint, ret, modify. simpl.
    destruct (decide _).
    + intros H. apply IH in H. simpl in H. done.
    + intros H. apply IH in H. simpl in H. done.
Qed.

Lemma Game_init_ok (fuel : nat) (n l : Z) (r : Rng) (links : gset (Z * Z)) (g : Game) :
  Game_init fuel n l r = (inr links, g) -> init_ok g.
Proof.
  unfold Game_init, bind, initialize_factories, bind.
  destruct (append_neutral_factories (Z.to_nat n) (empty_game r)) as [[e|[]] g1] eqn:E1;
    [done|].
  assert (init_ok g1) as H1.
  { eapply append_neutral_factories_ok; [|exact E1]. split; [constructor|done]. }
  destruct (assign_player 0 1 g1) as [[e|[]] g2] eqn:E2; [done|].
  assert (init_ok g2) as H2 by (by eapply (assign_player_ok 0 1); [| |exact E2]).
  destruct (assign_player 1 2 g2) as [[e|[]] g3] eqn:E3; [done|].
  assert (init_ok g3) as H3 by (by eapply (assign_player_ok 1 2); [| |exact E3]).
  unfold initialize_distances. intros H.
  apply initialize_distances_loop_frame in H as (Hf & Ht & _).
  destruct H3 as [HF3 Ht3]. split; congruence.
Qed.

(** ** Links built at construction *)

Lemma initialize_distances_loop_size (fuel : nat) (n l : Z) (links : gset (Z * Z))
    (g : Game) (links' : gset (Z * Z)) (g' : Game) :
  initialize_distances_loop fuel n l links g = (inr links', g') ->
  Z.of_nat (size links) <= 2 * l ->
  Z.of_nat (size links') = 2 * l.
Proof.
  revert links g. induction fuel as [|fuel IH]; intros links g; simpl.
  - destruct (Z.of_nat (size links) <? 2 * l) eqn:E; [done|].
    intros [= <- <-] Hle. lia.
  - destruct (Z.of_nat (size links) <? 2 * l) eqn:E; [|intros [= <- <-] Hle; lia].
    unfold bind, sample2. destruct (n <? 2); [done|].
    unfold bind, randint, ret, modify. simpl.
    destruct (decide _) as [[Hnew _]|_]; intros H _.
    + apply IH in H; [done|].
      rewrite size_union by set_solver. rewrite size_singleton. lia.
    + apply IH in H; [done|]. lia.
Qed.

Lemma Game_init_link_count (fuel : nat) (n l : Z) (r : Rng)
    (links : gset (Z * Z)) (g : Game) :
  Game_init fuel n l r = (inr links, g) ->
  0 <= l ->
  Z.of_nat (size links) = 2 * l.
Proof.
  unfold Game_init, bind.
  destruct (initialize_factories n (empty_game r)) as [[e|[]] g1]; [done|].
  unfold initialize_distances. intros H Hl.
  apply initialize_distances_loop_size in H; [done|].
  rewrite size_empty. lia.
Qed.

(** C7.  [Game_init] with 3 factories and a link count of 1 returns with
    two entries in [links] and two unordered pairs in [distances], stored
    under both orderings: twice the requested number of links. *)
Theorem initialize_distances_doubles_link_count :
  exists links g,
    Game_init 100 3 1 counting_rng = (inr links, g)
    /\ size links = 2%nat
    /\ unordered_pairs (distances g) = 2%nat
    /\ map_to_list (distances g) = [((0, 2), 8); ((2, 0), 8); ((1, 2), 11); ((2, 1), 11)].
Proof.
  destruct (Game_init 100 3 1 counting_rng) as [[e|links] g] eqn:E.
  { apply (f_equal fst) in E. vm_compute in E. discriminate E. }
  exists links, g. split; [done|].
  assert (links = match fst (Game_init 100 3 1 counting_rng) with
                  | inr l => l | inl _ => ∅ end) as -> by (by rewrite E).
  assert (g = snd (Game_init 100 3 1 counting_rng)) as -> by (by rewrite E).
  vm_compute. done.
Qed.

(** Inside [update] the bomb phase runs before the production phase, so the
    call in which a bomb lands already performs the first decrement: a caller
    of [update] sees the counter at 4 after that call. *)
Lemma bomb_landing_update_example :
  update (mkGame [mkFactory 1 12 2 0; mkFactory 2 8 1 0] []
                 [mkBomb 2 1 0 1] ∅ counting_rng)
  = (inr tt, mkGame [mkFactory 1 2 2 4; mkFactory 2 9 1 0] [] [] ∅ counting_rng).
Proof. reflexivity. Qed.

Lemma sample2_two (g : Game) :
  exists p, sample2 2 g = (inr p, set_random (rng_next (rng_next (random g))) g)
            /\ (p = (0, 1) \/ p = (1, 0)).
Proof.
  unfold sample2, bind, randint, ret. cbn -[randint_value].
  set (j1 := randint_value 0 (2 - 1) (random g)).
  set (j2 := randint_value 0 (2 - 2) (rng_next (random g))).
  assert (0 <= j1 <= 1) as H1 by (apply randint_value_range; lia).
  assert (0 <= j2 <= 0) as H2 by (apply randint_value_range; lia).
  clearbody j1 j2. eexists. split; [reflexivity|].
  assert (j2 = 0) as -> by lia.
  destruct (decide (j1 = 0)) as [->|Hne]; [by left|].
  assert (j1 = 1) as -> by lia. by right.
Qed.

(** With two factories there is one unordered pair, so the set [links] never
    reaches the size [2 * 1] the loop waits for: whatever the fuel and the
    generator, the loop of [initialize_distances] is still running when the
    fuel is spent. *)
Lemma initialize_distances_loop_two (fuel : nat) (links : gset (Z * Z)) (g : Game) :
  links = ∅ \/ links = {[(0, 1)]} \/ links = {[(1, 0)]} ->
  fst (initialize_distances_loop fuel 2 1 links g) = inl OutOfFuel.
Proof.
  revert links g. induction fuel as [|fuel IH]; intros links g Hl.
  - simpl. assert ((Z.of_nat (size links) <? 2 * 1) = true) as ->; [|done].
    destruct Hl as [->|[->| ->]];
      rewrite ?size_empty, ?size_singleton; reflexivity.
  - simpl. assert ((Z.of_nat (size links) <? 2 * 1) = true) as ->.
    { destruct Hl as [->|[->| ->]];
        rewrite ?size_empty, ?size_singleton; reflexivity. }
    unfold bind at 1. destruct (sample2_two g) as (p & -> & Hp).
    destruct (decide _) as [[H1 H2]|Hn].
    + unfold bind, randint, ret, modify. simpl. apply IH.
      destruct Hl as [->|[->| ->]].
      * destruct Hp as [->| ->]; simpl; [right; left|right; right]; set_solver.
      * destruct Hp as [->| ->]; simpl in H1, H2; set_solver.
      * destruct Hp as [->| ->]; simpl in H1, H2; set_solver.
    + by apply IH.
Qed.

Lemma Game_init_two_factories_never_returns (fuel : nat) (r : Rng) :
  fst (Game_init fuel 2 1 r) = inl OutOfFuel.
Proof.
  unfold Game_init, bind.
  destruct (initialize_factories 2 (empty_game r)) as [[e|[]] g1] eqn:E.
  - apply (f_equal fst) in E. vm_compute in E. discriminate E.
  - apply initialize_distances_loop_two. by left.
Qed.

(** * Further properties *)

(** ** Construction of the factories *)

Lemma Factory_init_neutral (c : Z) (g : Game) :
  Factory_init 0 c g = (inr (mkFactory 0 c 0 0), g).
Proof. reflexivity. Qed.

Lemma append_neutral_factories_run (k : nat) (g : Game) :
  exists fs,
    append_neutral_factories k g =
      (inr tt, mkGame (factories g ++ fs) (troops g) (bombs g) (distances g)
                      (Nat.iter k rng_next (random g)))
    /\ length fs = k /\ Forall fresh_neutral fs.
Proof.
  revert g. induction k as [|k IH]; intros g.
  - exists []. simpl. rewrite app_nil_r. by destruct g.
  - cbn [append_neutral_factories].
    unfold bind at 1. unfold randint at 1. unfold bind at 1.
    rewrite Factory_init_neutral. unfold bind at 1. unfold modify at 1.
    set (f := mkFactory 0 (randint_value 15 30 (random g)) 0 0).
    set (g1 := set_factories _ _).
    destruct (IH g1) as (fs & Hrun & Hlen & Hfs).
    exists (f :: fs). rewrite Hrun. subst g1. cbn -[randint_value Nat.iter].
    split; [|split].
    + rewrite <- app_assoc. by rewrite Nat.iter_succ_r.
    + by rewrite Hlen.
    + constructor; [|done]. repeat split; simpl; try done;
        pose proof (randint_value_range 15 30 (random g)); lia.
Qed.

Lemma assign_player_run (i o : Z) (g : Game) (n : nat) (f : Factory) :
  py_index (length (factories g)) i = Some n ->
  factories g !! n = Some f ->
  assign_player i o g =
    (inr tt,
     mkGame (<[n := mkFactory o (cyborgs f) (randint_value 0 3 (random g))
                              (production_disabled f)]> (factories g))
            (troops g) (bombs g) (distances g) (rng_next (random g))).
Proof.
  intros Hi Hf. unfold assign_player, bind at 1. unfold randint at 1.
  unfold bind at 1.
  rewrite (factory_at_ok _ i n f); [|exact Hi|exact Hf].
  unfold bind at 1. unfold update_factory at 1, modify at 1. cbn [fst snd].
  unfold bind at 1.
  rewrite (factory_at_ok _ i n (set_owner o f)).
  - unfold update_factory, modify, set_factories, set_random. simpl.
    rewrite list_alter_alter_eq. f_equal. f_equal.
    by rewrite (alter_lookup_insert _ _ _ f Hf).
  - simpl. by rewrite length_alter.
  - simpl. by rewrite list_lookup_alter_eq, Hf.
Qed.

Lemma assign_player_fail (i o : Z) (g : Game) :
  py_index (length (factories g)) i = None ->
  assign_player i o g = (inl IndexError, set_random (rng_next (random g)) g).
Proof.
  intros Hi. unfold assign_player, bind at 1. unfold randint at 1.
  unfold bind at 1. by rewrite factory_at_fail.
Qed.

Lemma py_index_nonneg (len : nat) (i : Z) :
  0 <= i < Z.of_nat len -> py_index len i = Some (Z.to_nat i).
Proof.
  intros H. unfold py_index.
  assert ((0 <=? i) = true) as -> by lia.
  assert ((i <? Z.of_nat len) = true) as -> by lia. done.
Qed.

Lemma py_index_out (len : nat) (i : Z) :
  i < - Z.of_nat len \/ Z.of_nat len <= i -> py_index len i = None.
Proof.
  intros H. unfold py_index.
  destruct ((0 <=? i) && (i <? Z.of_nat len)) eqn:E1; [lia|].
  destruct ((- Z.of_nat len <=? i) && (i <? 0)) eqn:E2; [lia|done].
Qed.

Lemma initialize_factories_run (n : Z) (r : Rng) :
  2 <= n ->
  exists fs,
    initialize_factories n (empty_game r) =
      (inr tt, mkGame fs [] [] ∅ (Nat.iter (Z.to_nat n + 2) rng_next r))
    /\ length fs = Z.to_nat n
    /\ forall i f, fs !! i = Some f -> initial_factory i f.
Proof.
  intros Hn. unfold initialize_factories. unfold bind at 1.
  destruct (append_neutral_factories_run (Z.to_nat n) (empty_game r))
    as (fs0 & -> & Hlen & Hfs).
  destruct fs0 as [|f0 [|f1 fs']]; simpl in Hlen; [lia|lia|].
  apply Forall_cons in Hfs as [(Ho0 & Hc0 & Hp0 & Hd0) Hfs].
  apply Forall_cons in Hfs as [(Ho1 & Hc1 & Hp1 & Hd1) Hfs].
  unfold bind at 1.
  rewrite (assign_player_run 0 1 _ 0%nat f0); [|reflexivity|reflexivity].
  cbn [factories troops bombs distances random empty_game app].
  rewrite (assign_player_run 1 2 _ 1%nat f1); [| |reflexivity].
  2:{ apply py_index_nonneg. simpl. lia. }
  cbn -[randint_value Nat.iter].
  eexists. split; [|split].
  - replace (Z.to_nat n + 2)%nat with (S (S (Z.to_nat n))) by lia. reflexivity.
  - simpl. lia.
  - intros [|[|i]] f; simpl; intros Hf.
    + inversion Hf; subst f. unfold initial_factory. simpl.
      pose proof (randint_value_range 0 3 (Nat.iter (Z.to_nat n) rng_next r)).
      rewrite Hd0. repeat split; lia.
    + inversion Hf; subst f. unfold initial_factory. simpl.
      pose proof (randint_value_range 0 3
                    (rng_next (Nat.iter (Z.to_nat n) rng_next r))).
      rewrite Hd1. repeat split; lia.
    + apply (Forall_lookup_1 _ _ _ _ Hfs) in Hf as (Ho & Hc & Hp & Hd).
      unfold initial_factory. repeat split; try done; lia.
Qed.

(** X1.  For a factory count of at least 2, [initialize_factories] on the
    empty game returns with exactly that many factories and no troop, bomb
    or distance: every factory holds between 15 and 30 cyborgs and is not
    disabled; factory 0 belongs to player 1 and factory 1 to player 2, each
    with a production rate between 0 and 3; every other factory is neutral
    with production 0.  It consumes [factory_count + 2] random draws. *)
Theorem initialize_factories_shape (n : Z) (r : Rng) :
  2 <= n ->
  exists fs,
    initialize_factories n (empty_game r) =
      (inr tt, mkGame fs [] [] ∅ (Nat.iter (Z.to_nat n + 2) rng_next r))
    /\ length fs = Z.to_nat n
    /\ forall i f, fs !! i = Some f -> initial_factory i f.
Proof. apply initialize_factories_run. Qed.

Lemma initialize_factories_shape_witness :
  exists fs,
    initialize_factories 3 (empty_game counting_rng) =
      (inr tt, mkGame fs [] [] ∅ (Nat.iter (Z.to_nat 3 + 2) rng_next counting_rng))
    /\ length fs = Z.to_nat 3
    /\ forall i f, fs !! i = Some f -> initial_factory i f.
Proof. apply (initialize_factories_shape 3 counting_rng). lia. Defined.

(** X2.  With fewer than two factories the construction fails: the
    assignment of factory 0 or of factory 1 raises [IndexError], before any
    distance is stored; the factories appended so far stay in the game. *)
Theorem Game_init_too_few_factories (fuel : nat) (n l : Z) (r : Rng) :
  n < 2 ->
  exists g, Game_init fuel n l r = (inl IndexError, g)
    /\ length (factories g) = Z.to_nat n
    /\ troops g = [] /\ bombs g = [] /\ distances g = ∅.
Proof.
  intros Hn. unfold Game_init. unfold bind at 1.
  unfold initialize_factories. unfold bind at 1.
  destruct (append_neutral_factories_run (Z.to_nat n) (empty_game r))
    as (fs0 & -> & Hlen & Hfs).
  destruct fs0 as [|f0 [|f1 fs']]; simpl in Hlen; [| |lia].
  - unfold bind at 1. rewrite assign_player_fail by reflexivity.
    eexists. split; [reflexivity|]. by rewrite <- Hlen.
  - unfold bind at 1.
    rewrite (assign_player_run 0 1 _ 0%nat f0); [|reflexivity|reflexivity].
    rewrite assign_player_fail by reflexivity.
    eexists. split; [reflexivity|]. by rewrite <- Hlen.
Qed.

Lemma Game_init_too_few_factories_witness :
  exists g, Game_init 100 1 0 counting_rng = (inl IndexError, g)
    /\ length (factories g) = Z.to_nat 1
    /\ troops g = [] /\ bombs g = [] /\ distances g = ∅.
Proof. apply (Game_init_too_few_factories 100 1 0 counting_rng). lia. Defined.

(** ** Construction of the links *)

Lemma sample2_outcome (n : Z) (g : Game) :
  (n < 2 /\ sample2 n g = (inl ValueError, g))
  \/ (2 <= n /\ exists a b,
        sample2 n g = (inr (a, b), set_random (rng_next (rng_next (random g))) g)
        /\ 0 <= a < n /\ 0 <= b < n /\ a <> b).
Proof.
  unfold sample2. destruct (n <? 2) eqn:E.
  - left. split; [lia|done].
  - right. split; [lia|].
    unfold bind, randint, ret. cbn -[randint_value].
    set (j1 := randint_value 0 (n - 1) (random g)).
    set (j2 := randint_value 0 (n - 2) (rng_next (random g))).
    assert (0 <= j1 <= n - 1) as H1 by (apply randint_value_range; lia).
    assert (0 <= j2 <= n - 2) as H2 by (apply randint_value_range; lia).
    clearbody j1 j2. eexists _, _. split; [reflexivity|].
    destruct (j2 =? j1) eqn:E2; lia.
Qed.

Lemma links_ok_insert (n : Z) (d : gmap (Z * Z) Z) (f1 f2 x : Z) :
  links_ok n d -> 1 <= x <= 20 -> f1 <> f2 -> 0 <= f1 < n -> 0 <= f2 < n ->
  links_ok n (<[(f2, f1) := x]> (<[(f1, f2) := x]> d)).
Proof.
  intros Hd Hx Hne H1 H2 a b y Hy.
  destruct (decide ((a, b) = (f2, f1))) as [[= -> ->]|Hn1].
  - rewrite lookup_insert_eq in Hy. inversion Hy; subst y.
    rewrite lookup_insert_ne by congruence. rewrite lookup_insert_eq.
    repeat split; try done; lia.
  - rewrite lookup_insert_ne in Hy by congruence.
    destruct (decide ((a, b) = (f1, f2))) as [[= -> ->]|Hn2].
    + rewrite lookup_insert_eq in Hy. inversion Hy; subst y.
      rewrite lookup_insert_eq. repeat split; try done; lia.
    + rewrite lookup_insert_ne in Hy by congruence.
      destruct (Hd a b y Hy) as (? & Hba & ? & ? & ?).
      repeat split; try lia.
      rewrite !lookup_insert_ne; [done| |]; congruence.
Qed.

Lemma initialize_distances_loop_links_ok (fuel : nat) (n l : Z)
    (links : gset (Z * Z)) (g : Game) (res : exn + gset (Z * Z)) (g' : Game) :
  initialize_distances_loop fuel n l links g = (res, g') ->
  links_ok n (distances g) -> links_ok n (distances g').
Proof.
  revert links g. induction fuel as [|fuel IH]; intros links g; simpl.
  - destruct (Z.of_nat (size links) <? 2 * l); intros [= <- <-]; done.
  - destruct (Z.of_nat (size links) <? 2 * l); [|by intros [= <- <-]].
    unfold bind at 1.
    destruct (sample2_outcome n g) as [[_ ->]|(_ & a & b & -> & Ha & Hb & Hab)].
    { by intros [= <- <-]. }
    cbn [fst snd]. destruct (decide _) as [_|_].
    + unfold bind, randint, modify. cbn -[randint_value].
      intros H Hd. apply IH in H; [done|]. cbn -[randint_value].
      apply links_ok_insert; try done.
      apply randint_value_range. lia.
    + intros H Hd. by apply IH in H.
Qed.

Lemma assign_player_frame (i o : Z) (g : Game) (res : exn + unit) (g' : Game) :
  assign_player i o g = (res, g') ->
  troops g' = troops g /\ bombs g' = bombs g /\ distances g' = distances g.
Proof.
  destruct (py_index (length (factories g)) i) as [n|] eqn:Hi.
  - destruct (factories g !! n) as [f|] eqn:Hf.
    + rewrite (assign_player_run i o g n f Hi Hf). by intros [= <- <-].
    + apply py_index_lt in Hi. apply lookup_ge_None in Hf. lia.
  - rewrite (assign_player_fail i o g Hi). by intros [= <- <-].
Qed.

Lemma initialize_factories_frame (n : Z) (g : Game) (res : exn + unit) (g' : Game) :
  initialize_factories n g = (res, g') ->
  troops g' = troops g /\ bombs g' = bombs g /\ distances g' = distances g.
Proof.
  unfold initialize_factories. unfold bind at 1.
  destruct (append_neutral_factories_run (Z.to_nat n) g) as (fs & -> & _).
  unfold bind at 1.
  destruct (assign_player 0 1 _) as [[e|[]] g1] eqn:E1;
    apply assign_player_frame in E1 as (Ht1 & Hb1 & Hd1); simpl in *.
  - by intros [= <- <-].
  - intros E2. apply assign_player_frame in E2 as (Ht2 & Hb2 & Hd2).
    split; [|split]; congruence.
Qed.

Lemma Game_init_links_ok (fuel : nat) (n l : Z) (r : Rng)
    (res : exn + gset (Z * Z)) (g : Game) :
  Game_init fuel n l r = (res, g) -> links_ok n (distances g).
Proof.
  unfold Game_init. unfold bind at 1.
  destruct (initialize_factories n (empty_game r)) as [[e|[]] g1] eqn:E1;
    apply initialize_factories_frame in E1 as (_ & _ & Hd); simpl in Hd.
  - intros [= <- <-]. rewrite Hd. intros ? ? ? Hx. by rewrite lookup_empty in Hx.
  - unfold initialize_distances. intros H.
    apply initialize_distances_loop_links_ok in H; [done|].
    rewrite Hd. intros ? ? ? Hx. by rewrite lookup_empty in Hx.
Qed.

(** X3.  Whatever way the construction ends, every distance it stored lies
    between 1 and 20, joins two distinct factories of [range(factory_count)]
    and is stored with the same value under the reversed key. *)
Theorem Game_init_distances (fuel : nat) (n l : Z) (r : Rng)
    (res : exn + gset (Z * Z)) (g : Game) (a b x : Z) :
  Game_init fuel n l r = (res, g) ->
  distances g !! (a, b) = Some x ->
  1 <= x <= 20 /\ distances g !! (b, a) = Some x /\ a <> b
  /\ 0 <= a < n /\ 0 <= b < n.
Proof. intros H. by apply (Game_init_links_ok fuel n l r res g H). Qed.

Lemma Game_init_distances_witness :
  1 <= 8 <= 20
  /\ distances (snd (Game_init 100 3 1 counting_rng)) !! (2, 0) = Some 8
  /\ 0 <> 2 /\ 0 <= 0 < 3 /\ 0 <= 2 < 3.
Proof.
  apply (Game_init_distances 100 3 1 counting_rng
           (fst (Game_init 100 3 1 counting_rng))
           (snd (Game_init 100 3 1 counting_rng)) 0 2 8).
  - by destruct (Game_init 100 3 1 counting_rng).
  - vm_compute. reflexivity.
Defined.

Lemma filter_length_perm {A} (p : A -> bool) (l1 l2 : list A) :
  l1 ≡ₚ l2 -> length (List.filter p l1) = length (List.filter p l2).
Proof.
  induction 1 as [|x l1 l2 _ IH|x y l|l1 l2 l3 _ IH1 _ IH2]; simpl.
  - done.
  - destruct (p x); simpl; by rewrite IH.
  - destruct (p x), (p y); done.
  - by rewrite IH1.
Qed.

Lemma unordered_pairs_insert (d : gmap (Z * Z) Z) (k : Z * Z) (x : Z) :
  d !! k = None ->
  unordered_pairs (<[k := x]> d) =
    ((if (fst k <? snd k)%Z then 1 else 0) + unordered_pairs d)%nat.
Proof.
  intros Hk. unfold unordered_pairs.
  rewrite (filter_length_perm _ _ (map fst ((k, x) :: map_to_list d))).
  - simpl. by destruct (fst k <? snd k).
  - change (fst <$> map_to_list (<[k:=x]> d) ≡ₚ fst <$> ((k, x) :: map_to_list d)).
    by rewrite map_to_list_insert.
Qed.

Lemma initialize_distances_loop_pairs (fuel : nat) (n l : Z)
    (links : gset (Z * Z)) (g : Game) (links' : gset (Z * Z)) (g' : Game) :
  initialize_distances_loop fuel n l links g = (inr links', g') ->
  links_cover links (distances g) ->
  unordered_pairs (distances g) = size links ->
  unordered_pairs (distances g') = size links'.
Proof.
  revert links g. induction fuel as [|fuel IH]; intros links g; simpl.
  - destruct (Z.of_nat (size links) <? 2 * l); [done|]. by intros [= <- <-].
  - destruct (Z.of_nat (size links) <? 2 * l); [|by intros [= <- <-]].
    unfold bind at 1.
    destruct (sample2_outcome n g) as [[_ ->]|(_ & a & b & -> & _ & _ & Hab)];
      [done|].
    cbn [fst snd]. destruct (decide _) as [[Hn1 Hn2]|_].
    + unfold bind, randint, modify. cbn -[randint_value].
      intros H Hc Hs. apply IH in H; [done| |]; cbn -[randint_value].
      * intros a' b' Hab'.
        destruct (decide ((a', b') = (b, a))) as [[= -> ->]|Hne1]; [set_solver|].
        rewrite lookup_insert_ne in Hab' by congruence.
        destruct (decide ((a', b') = (a, b))) as [[= -> ->]|Hne2]; [set_solver|].
        rewrite lookup_insert_ne in Hab' by congruence.
        destruct (Hc a' b' Hab'); set_solver.
      * assert (distances g !! (a, b) = None) as Hab1.
        { apply eq_None_not_Some. intros Hx. destruct (Hc a b Hx); done. }
        assert (distances g !! (b, a) = None) as Hab2.
        { apply eq_None_not_Some. intros Hx. destruct (Hc b a Hx); done. }
        rewrite unordered_pairs_insert.
        2:{ rewrite lookup_insert_ne by congruence. done. }
        rewrite unordered_pairs_insert by done.
        rewrite size_union by set_solver. rewrite size_singleton, Hs. simpl.
        destruct (b <? a) eqn:E1, (a <? b) eqn:E2; lia.
    + intros H Hc Hs. by apply IH in H.
Qed.

(** X4.  When the construction returns, [distances] holds exactly
    [2 * link_count] unordered pairs of factories, for every generator and
    every non-negative link count. *)
Theorem Game_init_unordered_pairs (fuel : nat) (n l : Z) (r : Rng)
    (links : gset (Z * Z)) (g : Game) :
  Game_init fuel n l r = (inr links, g) ->
  0 <= l ->
  Z.of_nat (unordered_pairs (distances g)) = 2 * l.
Proof.
  intros H Hl. rewrite <- (Game_init_link_count fuel n l r links g H Hl).
  f_equal. revert H. unfold Game_init. unfold bind at 1.
  destruct (initialize_factories n (empty_game r)) as [[e|[]] g1] eqn:E1; [done|].
  apply initialize_factories_frame in E1 as (_ & _ & Hd); simpl in Hd.
  unfold initialize_distances. intros H.
  apply initialize_distances_loop_pairs in H; [done| |].
  - rewrite Hd. intros a b [x Hx]. by rewrite lookup_empty in Hx.
  - by rewrite Hd.
Qed.

Lemma Game_init_unordered_pairs_witness :
  Z.of_nat (unordered_pairs (distances (snd (Game_init 100 3 1 counting_rng))))
  = 2 * 1.
Proof.
  apply (Game_init_unordered_pairs 100 3 1 counting_rng
           (match fst (Game_init 100 3 1 counting_rng) with
            | inr l => l | inl _ => ∅ end)).
  - vm_compute. reflexivity.
  - lia.
Defined.

Lemma initialize_distances_loop_done (fuel : nat) (n l : Z)
    (links : gset (Z * Z)) (g : Game) :
  2 * l <= Z.of_nat (size links) ->
  initialize_distances_loop fuel n l links g = (inr links, g).
Proof.
  intros H. destruct fuel; simpl;
    (assert ((Z.of_nat (size links) <? 2 * l) = false) as -> by lia); done.
Qed.

(** X5.  With at least two factories and a link count of zero or less the
    construction returns at once, whatever the fuel, with no link stored:
    every pair of factories is then at the fallback distance 20. *)
Theorem Game_init_no_links (fuel : nat) (n l : Z) (r : Rng) :
  2 <= n -> l <= 0 ->
  exists g, Game_init fuel n l r = (inr ∅, g)
    /\ length (factories g) = Z.to_nat n
    /\ distances g = ∅
    /\ forall a b, distance_get (distances g) a b = 20.
Proof.
  intros Hn Hl. unfold Game_init. unfold bind at 1.
  destruct (initialize_factories_run n r Hn) as (fs & -> & Hlen & _).
  unfold initialize_distances.
  rewrite initialize_distances_loop_done by (rewrite size_empty; lia).
  eexists. split; [reflexivity|]. simpl. split; [done|]. split; [done|].
  intros a b. unfold distance_get. by rewrite lookup_empty.
Qed.

Lemma Game_init_no_links_witness :
  exists g, Game_init 0 3 0 counting_rng = (inr ∅, g)
    /\ length (factories g) = Z.to_nat 3
    /\ distances g = ∅
    /\ forall a b, distance_get (distances g) a b = 20.
Proof. apply (Game_init_no_links 0 3 0 counting_rng); lia. Defined.

(** ** Edge cases of commands and battles *)

(** X6.  A command whose source index lies outside [-len, len) raises
    [IndexError], for a troop and for a bomb alike, and leaves the game
    as it was. *)
Theorem send_out_of_range (g : Game) (o n src dst : Z) :
  src < - Z.of_nat (length (factories g)) \/ Z.of_nat (length (factories g)) <= src ->
  send_troop o n src dst g = (inl IndexError, g)
  /\ send_bomb o src dst g = (inl IndexError, g).
Proof.
  intros H. apply py_index_out in H.
  unfold send_troop, send_bomb, bind. by rewrite (factory_at_fail g src H).
Qed.

Lemma send_out_of_range_witness :
  send_troop 1 5 2 0 example_game = (inl IndexError, example_game)
  /\ send_bomb 1 2 0 example_game = (inl IndexError, example_game).
Proof. apply (send_out_of_range example_game 1 5 2 0). right. simpl. lia. Defined.

(** X7.  When the requesting owner holds the source factory, [send_bomb]
    appends exactly one bomb, whose travel time is the stored distance from
    source to destination or 20 when none is stored; it costs the source
    factory nothing, it does not look at the destination, and factories,
    troops, distances and the generator are unchanged. *)
Theorem send_bomb_effect (g : Game) (o src dst : Z) (i : nat) (f : Factory) :
  py_index (length (factories g)) src = Some i ->
  factories g !! i = Some f ->
  owner f = o ->
  send_bomb o src dst g =
    (inr tt,
     mkGame (factories g) (troops g)
            (bombs g ++ [mkBomb o src dst
                           (match distances g !! (src, dst) with
                            | Some d => d
                            | None => 20
                            end)])
            (distances g) (random g)).
Proof.
  intros Hi Hf Ho. unfold send_bomb, bind.
  rewrite (factory_at_ok g _ i f Hi Hf). simpl.
  destruct (decide (owner f <> o)); [contradiction|].
  unfold get, modify, set_bombs, distance_get. simpl.
  by destruct (distances g !! (src, dst)).
Qed.

Lemma send_bomb_effect_witness :
  send_bomb 1 0 7 example_game =
    (inr tt,
     mkGame (factories example_game) (troops example_game)
            (bombs example_game ++ [mkBomb 1 0 7
                           (match distances example_game !! (0, 7) with
                            | Some d => d
                            | None => 20
                            end)])
            (distances example_game) (random example_game)).
Proof.
  apply (send_bomb_effect example_game 1 0 7 0 (mkFactory 1 12 2 0)); reflexivity.
Defined.

(** X8.  A battle without any arriving troop, at an existing factory: when
    the factory holds no negative count, nothing at all changes; when its
    count is negative, the attacking force 0 exceeds it and the choice of a
    new owner among no combatants raises [ValueError], the game being
    unchanged. *)
Theorem resolve_battle_no_troops (g : Game) (d : Z) (i : nat) (f : Factory) :
  py_index (length (factories g)) d = Some i ->
  factories g !! i = Some f ->
  (0 <= cyborgs f -> resolve_battle d [] g = (inr tt, g))
  /\ (cyborgs f < 0 -> resolve_battle d [] g = (inl ValueError, g)).
Proof.
  intros Hi Hf. unfold resolve_battle, bind.
  rewrite (factory_at_ok g _ i f Hi Hf). simpl. split; intros Hc.
  - assert ((cyborgs f <? 0) = false) as -> by lia.
    unfold update_factory, modify.
    rewrite (alter_lookup_insert _ _ _ f Hf).
    replace (set_cyborgs (cyborgs f - 0) f) with f.
    + rewrite list_insert_id by done. by destruct g.
    + destruct f. unfold set_cyborgs. simpl. f_equal. lia.
  - by assert ((cyborgs f <? 0) = true) as -> by lia.
Qed.

Lemma resolve_battle_no_troops_witness :
  (0 <= 12 -> resolve_battle 0 [] example_game = (inr tt, example_game))
  /\ (12 < 0 -> resolve_battle 0 [] example_game = (inl ValueError, example_game)).
Proof.
  apply (resolve_battle_no_troops example_game 0 0 (mkFactory 1 12 2 0)); reflexivity.
Defined.

(** ** What a turn leaves alone *)

Lemma same_board_refl (g : Game) : same_board g g.
Proof. by split. Qed.

Lemma same_board_trans (g1 g2 g3 : Game) :
  same_board g1 g2 -> same_board g2 g3 -> same_board g1 g3.
Proof. intros [H1 H2] [H3 H4]. split; congruence. Qed.

Lemma resolve_battle_error (d : Z) (ts : list Troop) (g : Game) (e : exn) (g' : Game) :
  ts <> [] ->
  resolve_battle d ts g = (inl e, g') ->
  e = IndexError /\ g' = g /\ py_index (length (factories g)) d = None.
Proof.
  intros Hts H.
  destruct (resolve_battle_outcome d ts g) as [(e0 & He & Hn)|(i & f & f' & r & _ & _ & He & _)].
  - specialize (Hn Hts). revert H. unfold resolve_battle, bind.
    rewrite (factory_at_fail g d Hn). by intros [= <- <-].
  - rewrite He in H. discriminate H.
Qed.

Lemma resolve_battle_frame (d : Z) (ts : list Troop) (g : Game)
    (res : exn + unit) (g' : Game) :
  resolve_battle d ts g = (res, g') ->
  troops g' = troops g /\ bombs g' = bombs g /\ same_board g g'.
Proof.
  intros H.
  destruct (resolve_battle_outcome d ts g) as [(e0 & He & _)|(i & f & f' & r & _ & _ & He & _)];
    rewrite He in H; inversion H; subst.
  - by repeat split.
  - repeat split; simpl. by rewrite length_insert.
Qed.

Lemma resolve_battles_frame (battles : list (Z * list Troop)) (g : Game)
    (res : exn + unit) (g' : Game) :
  resolve_battles battles g = (res, g') ->
  troops g' = troops g /\ bombs g' = bombs g /\ same_board g g'.
Proof.
  revert g. induction battles as [|[d ts] battles IH]; intros g; simpl.
  - intros [= <- <-]. repeat split.
  - unfold bind. destruct (resolve_battle d ts g) as [[e|[]] g1] eqn:E;
      apply resolve_battle_frame in E as (Ht & Hb & Hs).
    + by intros [= <- <-].
    + intros H. apply IH in H as (Ht' & Hb' & Hs').
      split; [congruence|]. split; [congruence|]. by eapply same_board_trans.
Qed.

Lemma update_troops_frame (g : Game) (res : exn + unit) (g' : Game) :
  update_troops g = (res, g') ->
  troops g' = filter (fun t => travel_time t <> 0) (map move_troop (troops g))
  /\ bombs g' = bombs g /\ same_board g g'.
Proof.
  unfold update_troops, bind, get, modify. intros H.
  apply resolve_battles_frame in H as (Ht & Hb & Hs). simpl in *.
  split; [|done]. rewrite Ht. apply move_troops_spec.
Qed.

Lemma resolve_bomb_frame (b : Bomb) (g : Game) (res : exn + unit) (g' : Game) :
  resolve_bomb b g = (res, g') ->
  troops g' = troops g /\ bombs g' = bombs g /\ same_board g g'.
Proof.
  intros H.
  destruct (resolve_bomb_outcome b g) as [[_ He]|(i & f & _ & _ & He)];
    rewrite He in H; inversion H; subst.
  - by repeat split.
  - repeat split; simpl. by rewrite length_insert.
Qed.

Lemma update_bombs_loop_frame (snapshot kept : list Bomb) (g : Game)
    (res : exn + unit) (g' : Game) :
  update_bombs_loop kept snapshot g = (res, g') ->
  troops g' = troops g /\ same_board g g'
  /\ (res = inr tt ->
      bombs g' = kept ++ filter (fun b => bomb_travel_time b <> 0) (map move_bomb snapshot)
      \/ (snapshot = [] /\ bombs g' = bombs g)).
Proof.
  revert kept g. induction snapshot as [|b rest IH]; intros kept g.
  - simpl. intros [= <- <-]. repeat split. intros _. by right.
  - cbn [update_bombs_loop]. unfold bind at 1. unfold modify at 1.
    destruct (bomb_travel_time (move_bomb b) =? 0) eqn:E.
    + unfold bind at 1.
      destruct (resolve_bomb (move_bomb b) _) as [[e|[]] g1] eqn:E1;
        apply resolve_bomb_frame in E1 as (Ht1 & Hb1 & Hd1 & Hl1); simpl in *.
      * intros [= <- <-]. unfold same_board. by repeat split.
      * unfold bind at 1. unfold modify at 1. intros H.
        apply IH in H as (Ht & [Hd Hl] & Hb). simpl in *.
        split; [congruence|]. split; [split; congruence|].
        intros Hr. left. apply Z.eqb_eq in E. cbn [map].
        rewrite filter_cons, decide_False by (simpl in *; lia).
        destruct (Hb Hr) as [->|[-> ->]]; [done|]. simpl. by rewrite filter_nil.
    + intros H. apply IH in H as (Ht & [Hd Hl] & Hb). simpl in *.
      split; [done|]. split; [by split|].
      intros Hr. left. apply Z.eqb_neq in E. cbn [map].
      rewrite filter_cons, decide_True by (simpl in *; lia).
      destruct (Hb Hr) as [->|[-> ->]].
      * by rewrite <- app_assoc.
      * simpl. by rewrite filter_nil.
Qed.

Lemma update_bombs_frame (g : Game) (res : exn + unit) (g' : Game) :
  update_bombs g = (res, g') ->
  troops g' = troops g /\ same_board g g'
  /\ (res = inr tt ->
      bombs g' = filter (fun b => bomb_travel_time b <> 0) (map move_bomb (bombs g))).
Proof.
  unfold update_bombs, bind, get. intros H.
  apply update_bombs_loop_frame in H as (Ht & Hs & Hb).
  split; [done|]. split; [done|]. intros Hr.
  destruct (Hb Hr) as [->|[Hnil ->]]; [done|]. by rewrite Hnil.
Qed.

Lemma update_frame (g : Game) (res : exn + unit) (g' : Game) :
  update g = (res, g') ->
  troops g' = filter (fun t => travel_time t <> 0) (map move_troop (troops g))
  /\ same_board g g'
  /\ (res = inr tt ->
      bombs g' = filter (fun b => bomb_travel_time b <> 0) (map move_bomb (bombs g))).
Proof.
  unfold update. unfold bind at 1.
  destruct (update_troops g) as [[e|[]] g1] eqn:E1;
    apply update_troops_frame in E1 as (Ht1 & Hb1 & Hs1).
  { intros [= <- <-]. split; [done|]. split; [done|]. done. }
  unfold bind at 1.
  destruct (update_bombs g1) as [[e|[]] g2] eqn:E2;
    apply update_bombs_frame in E2 as (Ht2 & Hs2 & Hb2).
  { intros [= <- <-]. split; [congruence|]. split; [|done].
    by eapply same_board_trans. }
  unfold produce_all, modify. intros [= <- <-]. simpl.
  split; [congruence|]. split.
  - destruct Hs1 as [? ?], Hs2 as [? ?]. split; simpl; [congruence|].
    rewrite length_map. congruence.
  - intros _. rewrite Hb2 by done. by rewrite Hb1.
Qed.

(** X9.  A call of [update] that returns has moved every troop and every
    bomb one turn closer and dropped exactly those whose travel time reached
    0, keeping the order of both lists; the distance table and the number of
    factories are as before. *)
Theorem update_moves_everything (g g' : Game) :
  update g = (inr tt, g') ->
  troops g' = filter (fun t => travel_time t <> 0) (map move_troop (troops g))
  /\ bombs g' = filter (fun b => bomb_travel_time b <> 0) (map move_bomb (bombs g))
  /\ distances g' = distances g
  /\ length (factories g') = length (factories g).
Proof.
  intros H. apply update_frame in H as (Ht & [Hd Hl] & Hb).
  split; [done|]. split; [by apply Hb|]. by split.
Qed.

Lemma update_moves_everything_witness :
  troops (mkGame [mkFactory 1 2 2 4; mkFactory 2 9 1 0] [] [] ∅ counting_rng)
  = filter (fun t => travel_time t <> 0)
      (map move_troop
         (troops (mkGame [mkFactory 1 12 2 0; mkFactory 2 8 1 0] []
                         [mkBomb 2 1 0 1] ∅ counting_rng)))
  /\ bombs (mkGame [mkFactory 1 2 2 4; mkFactory 2 9 1 0] [] [] ∅ counting_rng)
     = filter (fun b => bomb_travel_time b <> 0)
         (map move_bomb
            (bombs (mkGame [mkFactory 1 12 2 0; mkFactory 2 8 1 0] []
                           [mkBomb 2 1 0 1] ∅ counting_rng)))
  /\ distances (mkGame [mkFactory 1 2 2 4; mkFactory 2 9 1 0] [] [] ∅ counting_rng)
     = distances (mkGame [mkFactory 1 12 2 0; mkFactory 2 8 1 0] []
                         [mkBomb 2 1 0 1] ∅ counting_rng)
  /\ length (factories (mkGame [mkFactory 1 2 2 4; mkFactory 2 9 1 0] [] [] ∅
                               counting_rng))
     = length (factories (mkGame [mkFactory 1 12 2 0; mkFactory 2 8 1 0] []
                                 [mkBomb 2 1 0 1] ∅ counting_rng)).
Proof.
  apply (update_moves_everything
           (mkGame [mkFactory 1 12 2 0; mkFactory 2 8 1 0] [] [mkBomb 2 1 0 1] ∅
                   counting_rng)
           (mkGame [mkFactory 1 2 2 4; mkFactory 2 9 1 0] [] [] ∅ counting_rng)).
  reflexivity.
Defined.

(** ** Turns that return and turns that raise *)

Lemma elsewhere_len (len : nat) (d : Z) :
  is_Some (py_index len d) <-> elsewhere len len d = true.
Proof.
  unfold elsewhere. split.
  - intros [j Hj]. rewrite Hj. apply py_index_lt in Hj.
    apply negb_true_iff, Nat.eqb_neq. lia.
  - destruct (py_index len d); [by eexists|done].
Qed.

Lemma in_flight_ok_quiet (g : Game) :
  in_flight_ok g <-> quiet_at (length (factories g)) g.
Proof.
  unfold in_flight_ok, quiet_at.
  split; intros [Ht Hb]; split;
    (eapply Forall_impl; [eassumption|]); intros x Hx; by apply elsewhere_len.
Qed.

Lemma update_in_flight_ok (g : Game) :
  in_flight_ok g -> exists g', update g = (inr tt, g') /\ in_flight_ok g'.
Proof.
  intros Hok. apply in_flight_ok_quiet in Hok as [Ht Hb].
  set (len := length (factories g)) in *.
  destruct (update_troops_quiet len g Ht) as (g1 & H1 & _ & Hl1 & Hb1 & Ht1).
  destruct (update_bombs_loop_quiet len (bombs g1) [] g1) as (g2 & H2 & _ & Hl2 & Ht2 & Hb2).
  { rewrite Hl1, Hb1. exact Hb. }
  { constructor. }
  { done. }
  exists (set_factories (map produce (factories g2)) g2).
  unfold update, bind. rewrite H1. unfold update_bombs, bind, get. rewrite H2.
  split; [done|]. apply in_flight_ok_quiet. unfold quiet_at. simpl.
  rewrite length_map, Hl2, Hl1. split.
  - by rewrite Ht2.
  - by rewrite Hl1 in Hb2.
Qed.

(** X10.  When every troop and bomb in flight is headed for an existing
    factory, any number of successive calls of [update] return without an
    exception, and the same holds of the game they leave. *)
Theorem updates_succeed (k : nat) (g : Game) :
  in_flight_ok g -> exists g', updates k g = (inr tt, g') /\ in_flight_ok g'.
Proof.
  revert g. induction k as [|k IH]; intros g Hok.
  - by exists g.
  - destruct (update_in_flight_ok g Hok) as (g1 & H1 & Hok1).
    destruct (IH g1 Hok1) as (g2 & H2 & Hok2).
    exists g2. simpl. unfold bind. by rewrite H1.
Qed.

Lemma updates_succeed_witness :
  exists g',
    updates 3 (mkGame [mkFactory 1 12 2 0; mkFactory 2 8 1 0] [mkTroop 1 4 0 1 2]
                      [mkBomb 2 1 0 1] ∅ counting_rng) = (inr tt, g')
    /\ in_flight_ok g'.
Proof.
  apply (updates_succeed 3).
  split; repeat constructor; by eexists.
Defined.

Lemma resolve_battle_ok_index (d : Z) (ts : list Troop) (g g' : Game) :
  resolve_battle d ts g = (inr tt, g') ->
  is_Some (py_index (length (factories g)) d).
Proof.
  intros H.
  destruct (resolve_battle_outcome d ts g) as [(e0 & He & _)|(i & f & f' & r & Hi & _)].
  - rewrite He in H. discriminate H.
  - by eexists.
Qed.

Lemma resolve_battles_bad (battles : list (Z * list Troop)) (g : Game)
    (d : Z) (grp : list Troop) :
  Forall (fun p => snd p <> []) battles ->
  (d, grp) ∈ battles ->
  py_index (length (factories g)) d = None ->
  exists g', resolve_battles battles g = (inl IndexError, g').
Proof.
  revert g. induction battles as [|[d0 ts0] battles IH]; intros g Hne Hin Hd.
  - by apply elem_of_nil in Hin.
  - apply Forall_cons in Hne as [Hne0 Hne]. simpl in Hne0. simpl. unfold bind.
    destruct (resolve_battle d0 ts0 g) as [[e|[]] g1] eqn:E.
    + apply resolve_battle_error in E as (-> & -> & _); [|done]. by eexists.
    + apply elem_of_cons in Hin as [[= <- <-]|Hin].
      * apply resolve_battle_ok_index in E as [j Hj]. congruence.
      * apply (IH g1 Hne Hin).
        apply resolve_battle_frame in E as (_ & _ & _ & Hl). by rewrite Hl.
Qed.

(** X11.  [send_troop] does not check the destination; when a troop reaches
    a destination that is not a factory, [update] raises [IndexError] in the
    battle phase.  The call is not undone: all troops have moved, the
    arriving ones have left the list, and the bombs have not moved. *)
Theorem update_lost_troop (g : Game) (t : Troop) :
  t ∈ troops g ->
  travel_time t = 1 ->
  py_index (length (factories g)) (destination_factory t) = None ->
  exists g', update g = (inl IndexError, g')
    /\ troops g' = filter (fun t => travel_time t <> 0) (map move_troop (troops g))
    /\ bombs g' = bombs g.
Proof.
  intros Hin Htt Hd.
  destruct (move_troops_spec (troops g)) as (_ & _ & Hnone & Hgroups).
  assert (exists grp, (destination_factory t, grp) ∈ snd (move_troops (troops g)))
    as [grp Hgrp].
  { destruct (decide (destination_factory t ∈ map fst (snd (move_troops (troops g)))))
      as [Hk|Hk].
    - apply list_elem_of_fmap in Hk as ([d' grp] & Hd' & Hk). simpl in Hd'. subst d'.
      by exists grp.
    - apply Hnone in Hk. exfalso.
      assert (move_troop t ∈ arrivals (destination_factory t) (troops g)) as Hm.
      { unfold arrivals. apply list_elem_of_filter. split; [done|].
        apply list_elem_of_filter. split; [simpl; lia|].
        by apply list_elem_of_fmap_2. }
      rewrite Hk in Hm. by apply elem_of_nil in Hm. }
  destruct (resolve_battles_bad (snd (move_troops (troops g)))
              (set_troops (fst (move_troops (troops g))) g)
              (destination_factory t) grp) as [g' Hg']; [|done|done|].
  { apply Forall_forall. intros [d grp'] Hp. by apply (Hgroups d grp'). }
  assert (update_troops g = (inl IndexError, g')) as Hu.
  { unfold update_troops, bind, get, modify. by rewrite Hg'. }
  exists g'. unfold update, bind. rewrite Hu. split; [done|].
  by apply update_troops_frame in Hu as (Ht & Hb & _).
Qed.

Lemma update_lost_troop_witness :
  exists g',
    update (mkGame [mkFactory 1 12 2 0; mkFactory 2 8 1 0]
                   [mkTroop 1 4 0 1 3; mkTroop 1 5 0 7 1] [mkBomb 2 1 0 1] ∅
                   counting_rng) = (inl IndexError, g')
    /\ troops g' = filter (fun t => travel_time t <> 0)
                     (map move_troop [mkTroop 1 4 0 1 3; mkTroop 1 5 0 7 1])
    /\ bombs g' = [mkBomb 2 1 0 1].
Proof.
  apply (update_lost_troop
           (mkGame [mkFactory 1 12 2 0; mkFactory 2 8 1 0]
                   [mkTroop 1 4 0 1 3; mkTroop 1 5 0 7 1] [mkBomb 2 1 0 1] ∅
                   counting_rng)
           (mkTroop 1 5 0 7 1)).
  - apply list_elem_of_further, list_elem_of_here.
  - reflexivity.
  - reflexivity.
Defined.

Lemma update_bombs_loop_bad (bs1 rest kept : list Bomb) (b : Bomb) (g : Game) :
  Forall (fun b' => bomb_travel_time b' <> 1) bs1 ->
  bomb_travel_time b = 1 ->
  py_index (length (factories g)) (bomb_destination_factory b) = None ->
  update_bombs_loop kept (bs1 ++ b :: rest) g =
    (inl IndexError, set_bombs (kept ++ map move_bomb bs1 ++ move_bomb b :: rest) g).
Proof.
  intros Hbs Hb Hd. revert kept g Hd.
  induction bs1 as [|b0 bs1 IH]; intros kept g Hd.
  - cbn [app map update_bombs_loop]. unfold bind at 1. unfold modify at 1.
    assert ((bomb_travel_time (move_bomb b) =? 0) = true) as -> by (simpl; lia).
    unfold bind at 1. unfold resolve_bomb. unfold bind at 1.
    by rewrite factory_at_fail.
  - apply Forall_cons in Hbs as [Hb0 Hbs].
    cbn [app map update_bombs_loop]. unfold bind at 1. unfold modify at 1.
    assert ((bomb_travel_time (move_bomb b0) =? 0) = false) as -> by (simpl; lia).
    rewrite (IH Hbs) by done. by rewrite <- app_assoc.
Qed.

(** X12.  [send_bomb] does not check the destination either.  When the first
    bomb to arrive in a turn is headed for a position that is not a factory,
    [update] raises [IndexError] in the bomb phase: the bombs listed before
    it have moved, the bomb itself stays in the list with travel time 0, the
    bombs after it have not moved, and the production phase is skipped. *)
Theorem update_stuck_bomb (g g1 : Game) (bs1 rest : list Bomb) (b : Bomb) :
  update_troops g = (inr tt, g1) ->
  bombs g = bs1 ++ b :: rest ->
  Forall (fun b' => bomb_travel_time b' <> 1) bs1 ->
  bomb_travel_time b = 1 ->
  py_index (length (factories g)) (bomb_destination_factory b) = None ->
  update g =
    (inl IndexError, set_bombs (map move_bomb bs1 ++ move_bomb b :: rest) g1).
Proof.
  intros Hu Hbs Hbs1 Hb Hd. unfold update. unfold bind at 1. rewrite Hu.
  apply update_troops_frame in Hu as (_ & Hb1 & _ & Hl).
  unfold bind at 1. unfold update_bombs, bind at 1, get. rewrite Hb1, Hbs.
  rewrite (update_bombs_loop_bad bs1 rest [] b g1); [done..|].
  by rewrite Hl.
Qed.

Lemma update_stuck_bomb_witness :
  update (mkGame [mkFactory 1 12 2 0; mkFactory 2 8 1 0] []
                 [mkBomb 1 0 1 3; mkBomb 2 1 5 1; mkBomb 1 0 1 1] ∅ counting_rng)
  = (inl IndexError,
     set_bombs (map move_bomb [mkBomb 1 0 1 3]
                ++ move_bomb (mkBomb 2 1 5 1) :: [mkBomb 1 0 1 1])
       (mkGame [mkFactory 1 12 2 0; mkFactory 2 8 1 0] []
               [mkBomb 1 0 1 3; mkBomb 2 1 5 1; mkBomb 1 0 1 1] ∅ counting_rng)).
Proof.
  apply (update_stuck_bomb
           (mkGame [mkFactory 1 12 2 0; mkFactory 2 8 1 0] []
                   [mkBomb 1 0 1 3; mkBomb 2 1 5 1; mkBomb 1 0 1 1] ∅ counting_rng)).
  - reflexivity.
  - reflexivity.
  - repeat constructor. simpl. lia.
  - reflexivity.
  - reflexivity.
Defined.

Lemma send_troop_frame (o n src dst : Z) (g : Game) (res : exn + unit) (g' : Game) :
  send_troop o n src dst g = (res, g') -> same_board g g'.
Proof.
  intros H.
  destruct (send_troop_outcome o n src dst g) as [[e He]|(i & f & Hf & He)];
    rewrite He in H; inversion H; subst.
  - apply same_board_refl.
  - split; simpl; [done|]. by rewrite length_insert.
Qed.

Lemma send_bomb_frame (o src dst : Z) (g : Game) (res : exn + unit) (g' : Game) :
  send_bomb o src dst g = (res, g') -> same_board g g'.
Proof.
  intros H.
  destruct (send_bomb_outcome o src dst g) as [[e He]|He];
    rewrite He in H; inversion H; subst; by split.
Qed.

(** ** Ranges kept by battles, bombs and production *)

Lemma distance_get_range (d : gmap (Z * Z) Z) (a b : Z) :
  (forall a b x, d !! (a, b) = Some x -> 1 <= x <= 20) ->
  1 <= distance_get d a b <= 20.
Proof.
  intros Hd. unfold distance_get.
  destruct (d !! (a, b)) as [x|] eqn:E; simpl; [by eapply Hd|lia].
Qed.

Lemma resolve_battle_new_factory (d : Z) (ts : list Troop) (g g' : Game) :
  resolve_battle d ts g = (inr tt, g') ->
  exists i f f',
    factories g !! i = Some f
    /\ factories g' = <[i := f']> (factories g)
    /\ production_disabled f' = production_disabled f
    /\ (production f' = production f
        \/ production f' = randint_value 0 3 (random g)).
Proof.
  destruct (py_index (length (factories g)) d) as [i|] eqn:Hi.
  2:{ unfold resolve_battle, bind. by rewrite (factory_at_fail g d Hi). }
  destruct (factories g !! i) as [f|] eqn:Hf.
  2:{ apply py_index_lt in Hi. apply lookup_ge_None in Hf. lia. }
  unfold resolve_battle, bind. rewrite (factory_at_ok g d i f Hi Hf).
  unfold raise. simpl.
  destruct (combatants_get (owner f) (battle_among (group_by_owner ts))) as [s|].
  { unfold update_factory, modify, set_factories.
    rewrite (alter_lookup_insert _ _ _ f Hf). intros [= <-].
    exists i, f, (set_cyborgs (cyborgs f + s) f). repeat split; try done. by left. }
  destruct (battle_among (group_by_owner ts)) as [|x l].
  - destruct (cyborgs f <? 0); [done|].
    unfold update_factory, modify, set_factories.
    rewrite (alter_lookup_insert _ _ _ f Hf). intros [= <-].
    exists i, f, (set_cyborgs (cyborgs f - 0) f). repeat split; try done. by left.
  - destruct (cyborgs f <? snd (max_item x l)).
    + unfold update_factory, modify, randint, set_factories, set_random. simpl.
      rewrite !list_alter_alter_eq, (alter_lookup_insert _ _ _ f Hf). intros [= <-].
      exists i, f,
        (mkFactory (fst (max_item x l)) (snd (max_item x l) - cyborgs f)
                   (randint_value 0 3 (random g)) (production_disabled f)).
      repeat split; try done. by right.
    + unfold update_factory, modify, set_factories.
      rewrite (alter_lookup_insert _ _ _ f Hf). intros [= <-].
      exists i, f, (set_cyborgs (cyborgs f - snd (max_item x l)) f).
      repeat split; try done. by left.
Qed.

Lemma resolve_battle_attr_ok (d : Z) (ts : list Troop) (g : Game)
    (res : exn + unit) (g' : Game) :
  Forall attr_ok (factories g) ->
  resolve_battle d ts g = (res, g') ->
  Forall attr_ok (factories g').
Proof.
  intros HF H. destruct res as [e|[]].
  - destruct (resolve_battle_outcome d ts g) as [(e0 & He & _)|(i & f & f' & r & _ & _ & He & _)];
      rewrite He in H; [|discriminate H]. by inversion H; subst.
  - apply resolve_battle_new_factory in H as (i & f & f' & Hf & -> & Hpd & Hp).
    apply Forall_insert; [done|].
    destruct (Forall_lookup_1 _ _ _ _ HF Hf) as [Hp0 Hd0].
    split; [|by rewrite Hpd].
    destruct Hp as [->| ->]; [done|]. apply randint_value_range. lia.
Qed.

Lemma resolve_battles_attr_ok (battles : list (Z * list Troop)) (g : Game)
    (res : exn + unit) (g' : Game) :
  Forall attr_ok (factories g) ->
  resolve_battles battles g = (res, g') ->
  Forall attr_ok (factories g').
Proof.
  revert g. induction battles as [|[d ts] battles IH]; intros g HF; simpl.
  - by intros [= <- <-].
  - unfold bind. destruct (resolve_battle d ts g) as [[e|[]] g1] eqn:E;
      apply resolve_battle_attr_ok in E; try done.
    + by intros [= <- <-].
    + by apply IH.
Qed.

Lemma update_bombs_loop_attr_ok (snapshot kept : list Bomb) (g : Game)
    (res : exn + unit) (g' : Game) :
  Forall attr_ok (factories g) ->
  update_bombs_loop kept snapshot g = (res, g') ->
  Forall attr_ok (factories g').
Proof.
  revert kept g. induction snapshot as [|b rest IH]; intros kept g HF.
  - simpl. by intros [= <- <-].
  - cbn [update_bombs_loop]. unfold bind at 1. unfold modify at 1.
    destruct (bomb_travel_time (move_bomb b) =? 0).
    + unfold bind at 1.
      destruct (resolve_bomb_outcome (move_bomb b)
                  (set_bombs (kept ++ move_bomb b :: rest) g))
        as [[_ ->]|(i & f & _ & Hf & ->)].
      * by intros [= <- <-].
      * unfold bind at 1. unfold modify at 1. apply IH. simpl in *.
        apply Forall_insert; [done|].
        destruct (Forall_lookup_1 _ _ _ _ HF Hf) as [Hp0 Hd0].
        split; simpl; [done|lia].
    + by apply IH.
Qed.

Lemma produce_attr_ok (f : Factory) : attr_ok f -> attr_ok (produce f).
Proof.
  intros [Hp Hd]. unfold produce.
  destruct (negb (owner f =? 0) && (production_disabled f =? 0)); [done|].
  destruct (0 <? production_disabled f) eqn:E; [|done].
  split; simpl; [done|lia].
Qed.

Lemma update_attr_ok (g : Game) (res : exn + unit) (g' : Game) :
  Forall attr_ok (factories g) -> update g = (res, g') ->
  Forall attr_ok (factories g').
Proof.
  intros HF. unfold update. unfold bind at 1.
  destruct (update_troops g) as [[e|[]] g1] eqn:E1;
    unfold update_troops, bind, get, modify in E1;
    apply resolve_battles_attr_ok in E1; try done.
  { by intros [= <- <-]. }
  unfold bind at 1.
  destruct (update_bombs g1) as [[e|[]] g2] eqn:E2;
    unfold update_bombs, bind, get in E2;
    apply update_bombs_loop_attr_ok in E2; try done.
  { by intros [= <- <-]. }
  unfold produce_all, modify. intros [= <- <-]. simpl.
  apply Forall_fmap. eapply Forall_impl; [exact E2|]. apply produce_attr_ok.
Qed.

Lemma assign_player_attr_ok (i o : Z) (g : Game) (res : exn + unit) (g' : Game) :
  Forall attr_ok (factories g) -> assign_player i o g = (res, g') ->
  Forall attr_ok (factories g').
Proof.
  intros HF.
  destruct (py_index (length (factories g)) i) as [n|] eqn:Hi.
  - destruct (factories g !! n) as [f|] eqn:Hf.
    + rewrite (assign_player_run i o g n f Hi Hf). intros [= <- <-]. simpl.
      apply Forall_insert; [done|].
      destruct (Forall_lookup_1 _ _ _ _ HF Hf) as [_ Hd].
      split; simpl; [|done]. apply randint_value_range. lia.
    + apply py_index_lt in Hi. apply lookup_ge_None in Hf. lia.
  - rewrite (assign_player_fail i o g Hi). by intros [= <- <-].
Qed.

Lemma Game_init_attr_ok (fuel : nat) (n l : Z) (r : Rng)
    (res : exn + gset (Z * Z)) (g : Game) :
  Game_init fuel n l r = (res, g) -> Forall attr_ok (factories g).
Proof.
  unfold Game_init. unfold bind at 1.
  assert (forall res1 g1, initialize_factories n (empty_game r) = (res1, g1) ->
                          Forall attr_ok (factories g1)) as Hinit.
  { intros res1 g1. unfold initialize_factories. unfold bind at 1.
    destruct (append_neutral_factories_run (Z.to_nat n) (empty_game r))
      as (fs & -> & _ & Hfs).
    assert (Forall attr_ok fs) as Hfs'.
    { eapply Forall_impl; [exact Hfs|]. intros f (_ & _ & Hp & Hd).
      split; lia. }
    unfold bind at 1.
    destruct (assign_player 0 1 _) as [[e|[]] g2] eqn:E2;
      apply assign_player_attr_ok in E2; try done.
    - by intros [= <- <-].
    - by apply assign_player_attr_ok. }
  destruct (initialize_factories n (empty_game r)) as [[e|[]] g1] eqn:E1;
    specialize (Hinit _ _ eq_refl).
  - by intros [= <- <-].
  - unfold initialize_distances. intros H.
    apply initialize_distances_loop_frame in H as (-> & _). done.
Qed.

(** ** Several turns *)

Lemma advance_troops_step (k : Z) (ts : list Troop) :
  0 <= k ->
  map (advance_troop k)
      (filter (fun t => ~ (1 <= travel_time t <= k))
              (filter (fun t => travel_time t <> 0) (map move_troop ts)))
  = map (advance_troop (k + 1))
        (filter (fun t => ~ (1 <= travel_time t <= k + 1)) ts).
Proof.
  intros Hk. induction ts as [|t ts IH]; [done|].
  cbn [map]. rewrite !filter_cons.
  destruct (decide (travel_time (move_troop t) <> 0)) as [H0|H0].
  - rewrite filter_cons.
    destruct (decide (~ (1 <= travel_time (move_troop t) <= k))) as [H1|H1].
    + rewrite decide_True by (simpl in *; lia). cbn [map]. rewrite IH.
      f_equal. unfold advance_troop. simpl. f_equal. lia.
    + rewrite decide_False by (simpl in *; lia). done.
  - rewrite decide_False by (simpl in *; lia). done.
Qed.

Lemma advance_bombs_step (k : Z) (bs : list Bomb) :
  0 <= k ->
  map (advance_bomb k)
      (filter (fun b => ~ (1 <= bomb_travel_time b <= k))
              (filter (fun b => bomb_travel_time b <> 0) (map move_bomb bs)))
  = map (advance_bomb (k + 1))
        (filter (fun b => ~ (1 <= bomb_travel_time b <= k + 1)) bs).
Proof.
  intros Hk. induction bs as [|b bs IH]; [done|].
  cbn [map]. rewrite !filter_cons.
  destruct (decide (bomb_travel_time (move_bomb b) <> 0)) as [H0|H0].
  - rewrite filter_cons.
    destruct (decide (~ (1 <= bomb_travel_time (move_bomb b) <= k))) as [H1|H1].
    + rewrite decide_True by (simpl in *; lia). cbn [map]. rewrite IH.
      f_equal. unfold advance_bomb. simpl. f_equal. lia.
    + rewrite decide_False by (simpl in *; lia). done.
  - rewrite decide_False by (simpl in *; lia). done.
Qed.

Lemma advance_zero (ts : list Troop) (bs : list Bomb) :
  map (advance_troop 0) (filter (fun t => ~ (1 <= travel_time t <= 0)) ts) = ts
  /\ map (advance_bomb 0) (filter (fun b => ~ (1 <= bomb_travel_time b <= 0)) bs) = bs.
Proof.
  split.
  - induction ts as [|t ts IH]; [done|].
    rewrite filter_cons, decide_True by lia. cbn [map]. rewrite IH. f_equal.
    destruct t. unfold advance_troop. simpl. f_equal. lia.
  - induction bs as [|b bs IH]; [done|].
    rewrite filter_cons, decide_True by lia. cbn [map]. rewrite IH. f_equal.
    destruct b. unfold advance_bomb. simpl. f_equal. lia.
Qed.

(** X16.  After [k] calls of [update] that all returned, the troops in
    flight are exactly the troops of the start whose travel time was not
    among 1, ..., [k], in their order and each [k] turns closer; so a troop
    with travel time [d >= 1] is in the list for [d - 1] calls and leaves it
    in the [d]-th.  The same holds of the bombs. *)
Theorem updates_in_flight (k : nat) (g g' : Game) :
  updates k g = (inr tt, g') ->
  troops g' = map (advance_troop (Z.of_nat k))
                  (filter (fun t => ~ (1 <= travel_time t <= Z.of_nat k)) (troops g))
  /\ bombs g' = map (advance_bomb (Z.of_nat k))
                    (filter (fun b => ~ (1 <= bomb_travel_time b <= Z.of_nat k))
                            (bombs g)).
Proof.
  revert g. induction k as [|k IH]; intros g.
  - intros [= <-]. destruct (advance_zero (troops g) (bombs g)) as [Ht Hb].
    change (Z.of_nat 0) with 0. by rewrite Ht, Hb.
  - cbn [updates]. unfold bind at 1.
    destruct (update g) as [[e|[]] g1] eqn:E1; [done|].
    intros H. apply IH in H as [Ht Hb].
    apply update_frame in E1 as (Ht1 & _ & Hb1). specialize (Hb1 eq_refl).
    rewrite Ht, Hb, Ht1, Hb1.
    rewrite advance_troops_step, advance_bombs_step by lia.
    by replace (Z.of_nat k + 1) with (Z.of_nat (S k)) by lia.
Qed.

Lemma updates_in_flight_witness :
  troops (mkGame [mkFactory 1 14 2 0; mkFactory 2 9 1 0] [mkTroop 2 3 1 0 3] []
                 ∅ counting_rng)
  = map (advance_troop (Z.of_nat 1))
        (filter (fun t => ~ (1 <= travel_time t <= Z.of_nat 1))
                [mkTroop 2 3 1 0 4; mkTroop 1 4 0 1 1])
  /\ bombs (mkGame [mkFactory 1 14 2 0; mkFactory 2 9 1 0] [mkTroop 2 3 1 0 3] []
                   ∅ counting_rng)
     = map (advance_bomb (Z.of_nat 1))
           (filter (fun b => ~ (1 <= bomb_travel_time b <= Z.of_nat 1)) []).
Proof.
  apply (updates_in_flight 1
           (mkGame [mkFactory 1 12 2 0; mkFactory 2 12 1 0]
                   [mkTroop 2 3 1 0 4; mkTroop 1 4 0 1 1] [] ∅ counting_rng)).
  reflexivity.
Defined.

Lemma move_troops_no_arrival (ts : list Troop) :
  Forall (fun t => travel_time t <> 1) ts ->
  move_troops ts = (map move_troop ts, []).
Proof.
  induction ts as [|t ts IH] using rev_ind; intros HF; [done|].
  apply Forall_app in HF as [HF Ht]. rewrite Forall_singleton in Ht.
  rewrite move_troops_snoc, IH by done. cbn [fst snd].
  assert ((travel_time (move_troop t) =? 0) = false) as -> by (simpl; lia).
  by rewrite map_app.
Qed.

Lemma update_bombs_loop_no_arrival (snapshot kept : list Bomb) (g : Game) :
  Forall (fun b => bomb_travel_time b <> 1) snapshot ->
  bombs g = kept ++ snapshot ->
  update_bombs_loop kept snapshot g =
    (inr tt, set_bombs (kept ++ map move_bomb snapshot) g).
Proof.
  revert kept g. induction snapshot as [|b rest IH]; intros kept g HF Hb.
  - simpl. rewrite app_nil_r in *. rewrite <- Hb. by destruct g.
  - apply Forall_cons in HF as [Hb0 HF].
    cbn [update_bombs_loop map]. unfold bind at 1. unfold modify at 1.
    assert ((bomb_travel_time (move_bomb b) =? 0) = false) as -> by (simpl; lia).
    rewrite IH; [|done|simpl; by rewrite <- app_assoc].
    by rewrite <- app_assoc.
Qed.

(** X17.  A turn in which nothing arrives is movement and production only:
    when no troop and no bomb has travel time 1, [update] returns, every
    troop and bomb is one turn closer, every factory has gone through the
    production step, and no random number is drawn. *)
Theorem update_without_arrival (g : Game) :
  Forall (fun t => travel_time t <> 1) (troops g) ->
  Forall (fun b => bomb_travel_time b <> 1) (bombs g) ->
  update g =
    (inr tt,
     mkGame (map produce (factories g)) (map move_troop (troops g))
            (map move_bomb (bombs g)) (distances g) (random g)).
Proof.
  intros Ht Hb. unfold update. unfold bind at 1.
  unfold update_troops, bind at 1, get. rewrite (move_troops_no_arrival _ Ht).
  unfold bind at 1. unfold modify at 1. cbn [fst snd resolve_battles].
  unfold ret. unfold bind at 1. unfold update_bombs, bind at 1, get.
  cbn [bombs set_troops].
  rewrite update_bombs_loop_no_arrival; [|done|done].
  unfold produce_all, modify. done.
Qed.

Lemma update_without_arrival_witness :
  update (mkGame [mkFactory 1 12 2 0; mkFactory 0 8 0 3] [mkTroop 1 4 0 1 2]
                 [mkBomb 2 1 0 5] ∅ counting_rng) =
    (inr tt,
     mkGame (map produce [mkFactory 1 12 2 0; mkFactory 0 8 0 3])
            (map move_troop [mkTroop 1 4 0 1 2]) (map move_bomb [mkBomb 2 1 0 5])
            ∅ counting_rng).
Proof.
  apply (update_without_arrival
           (mkGame [mkFactory 1 12 2 0; mkFactory 0 8 0 3] [mkTroop 1 4 0 1 2]
                   [mkBomb 2 1 0 5] ∅ counting_rng));
    repeat constructor; simpl; lia.
Defined.

(** ** The example script *)

Lemma Game_init_board (fuel : nat) (n l : Z) (r : Rng)
    (links : gset (Z * Z)) (g : Game) :
  2 <= n ->
  Game_init fuel n l r = (inr links, g) ->
  length (factories g) = Z.to_nat n
  /\ (forall i f, factories g !! i = Some f -> initial_factory i f)
  /\ troops g = [] /\ bombs g = [].
Proof.
  intros Hn. unfold Game_init. unfold bind at 1.
  destruct (initialize_factories_run n r Hn) as (fs & -> & Hlen & Hfs).
  unfold initialize_distances. intros H.
  apply initialize_distances_loop_frame in H as (-> & -> & ->). done.
Qed.

(** X19.  Once [Game(10, 7)] is built, the example script runs to its end
    without an exception, whatever the random draws: both commands are
    accepted and the three turns return.  The game still has its 10
    factories and factory 0 still belongs to player 1. *)
Theorem example_usage_returns (fuel : nat) (r : Rng)
    (links : gset (Z * Z)) (g0 : Game) :
  Game_init fuel 10 7 r = (inr links, g0) ->
  exists g f,
    example_usage fuel r = (inr tt, g)
    /\ length (factories g) = 10%nat
    /\ factories g !! 0%nat = Some f /\ owner f = 1.
Proof.
  intros Hinit. unfold example_usage. rewrite Hinit.
  apply Game_init_board in Hinit as (Hlen & Hfs & Ht0 & Hb0); [|lia].
  change (Z.to_nat 10) with 10%nat in Hlen.
  destruct (factories g0 !! 0%nat) as [f0|] eqn:Hf0.
  2:{ apply lookup_ge_None in Hf0. lia. }
  destruct (Hfs _ _ Hf0) as (_ & _ & Ho0 & _).
  assert (py_index (length (factories g0)) 0 = Some 0%nat) as Hi0.
  { by rewrite Hlen. }
  (* send_troop(1, 5, 0, 2) *)
  unfold bind at 1. unfold send_troop. unfold bind at 1.
  rewrite (factory_at_ok g0 0 0%nat f0 Hi0 Hf0). cbn [fst snd].
  destruct (decide (owner f0 <> 1)) as [|_]; [contradiction|].
  unfold bind at 1, get. unfold bind at 1. unfold modify at 1.
  unfold bind at 1. rewrite (factory_at_ok _ 0 0%nat f0); [|exact Hi0|exact Hf0].
  unfold update_factory, modify. cbn [fst snd].
  rewrite Ht0. cbn [app factories set_troops set_factories].
  rewrite (alter_lookup_insert _ _ _ f0 Hf0).
  set (f1 := set_cyborgs (cyborgs f0 - 5) f0).
  set (g1 := set_factories _ _).
  (* update *)
  assert (length (factories g1) = 10%nat) as Hlen1.
  { subst g1. simpl. by rewrite length_insert. }
  destruct (update_quiet 0 g1 f1) as (g2 & Hu2 & Hf2 & Hlen2 & Hq2).
  { subst g1. simpl. apply list_lookup_insert_eq. by eapply lookup_lt_Some. }
  { split.
    - subst g1. unfold troops at 1. apply Forall_singleton.
      rewrite Hlen1. reflexivity.
    - subst g1. simpl. rewrite Hb0. constructor. }
  unfold bind at 1. rewrite Hu2.
  (* send_bomb(1, 0, 6) *)
  assert (py_index (length (factories g2)) 0 = Some 0%nat) as Hi2.
  { by rewrite Hlen2, Hlen1. }
  unfold bind at 1. unfold send_bomb. unfold bind at 1.
  rewrite (factory_at_ok g2 0 0%nat (produce f1) Hi2 Hf2). cbn [fst snd].
  destruct (decide (owner (produce f1) <> 1)) as [Hne|_].
  { destruct (produce_same_rate f1) as [Ho _]. rewrite Ho in Hne.
    subst f1. simpl in Hne. contradiction. }
  unfold bind at 1, get. unfold modify at 1.
  set (g3 := set_bombs _ g2).
  (* update, twice *)
  destruct (update_quiet 0 g3 (produce f1)) as (g4 & Hu4 & Hf4 & Hlen4 & Hq4).
  { exact Hf2. }
  { destruct Hq2 as [Hqt Hqb]. split; [exact Hqt|].
    subst g3. cbn [bombs set_bombs factories]. apply Forall_app. split; [exact Hqb|].
    apply Forall_singleton. cbn [bomb_destination_factory].
    rewrite Hlen2, Hlen1. reflexivity. }
  unfold bind at 1. rewrite Hu4.
  destruct (update_quiet 0 g4 (produce (produce f1))) as (g5 & Hu5 & Hf5 & Hlen5 & _);
    [exact Hf4|exact Hq4|].
  rewrite Hu5. exists g5, (produce (produce (produce f1))).
  split; [done|]. split.
  - rewrite Hlen5, Hlen4. subst g3. simpl. by rewrite Hlen2.
  - split; [done|].
    destruct (produce_same_rate (produce (produce f1))) as [-> _].
    destruct (produce_same_rate (produce f1)) as [-> _].
    destruct (produce_same_rate f1) as [-> _]. done.
Qed.

Lemma example_usage_returns_witness :
  exists g f,
    example_usage 100 counting_rng = (inr tt, g)
    /\ length (factories g) = 10%nat
    /\ factories g !! 0%nat = Some f /\ owner f = 1.
Proof.
  apply (example_usage_returns 100 counting_rng
           (match fst (Game_init 100 10 7 counting_rng) with
            | inr l => l | inl _ => ∅ end)
           (snd (Game_init 100 10 7 counting_rng))).
  vm_compute. reflexivity.
Defined.

(** ** Conservation and production *)

Lemma sumZ_cyborgs_insert (fs : list Factory) (i : nat) (f f' : Factory) :
  fs !! i = Some f ->
  sumZ (map cyborgs (<[i := f']> fs)) =
    sumZ (map cyborgs fs) - cyborgs f + cyborgs f'.
Proof.
  revert i. induction fs as [|f0 fs IH]; intros [|i] Hf; simpl in *; try done.
  - inversion Hf; subst. lia.
  - rewrite (IH i Hf). lia.
Qed.

(** X20.  A troop command neither creates nor destroys cyborgs: whether it
    is accepted or raises, the cyborgs held by the factories plus those in
    flight add up to the same total after the call. *)
Theorem send_troop_conserves_cyborgs (o n src dst : Z) (g : Game)
    (res : exn + unit) (g' : Game) :
  send_troop o n src dst g = (res, g') -> total_cyborgs g' = total_cyborgs g.
Proof.
  intros H.
  destruct (send_troop_outcome o n src dst g) as [[e He]|(i & f & Hf & He)];
    rewrite He in H; inversion H; subst; [done|].
  unfold total_cyborgs. simpl.
  rewrite (sumZ_cyborgs_insert _ _ f _ Hf), map_app, sumZ_app. simpl. lia.
Qed.

Lemma send_troop_conserves_cyborgs_witness :
  total_cyborgs (mkGame [mkFactory 1 7 2 0; mkFactory 0 8 0 0]
                        [mkTroop 1 5 0 1 20] [] ∅ counting_rng)
  = total_cyborgs example_game.
Proof.
  apply (send_troop_conserves_cyborgs 1 5 0 1 example_game (inr tt)).
  reflexivity.
Defined.

Lemma iter_produce_enabled (k : nat) (f : Factory) :
  owner f <> 0 -> production_disabled f = 0 ->
  Nat.iter k produce f = set_cyborgs (cyborgs f + Z.of_nat k * production f) f.
Proof.
  intros Ho Hd. induction k as [|k IH].
  - simpl. destruct f. unfold set_cyborgs. simpl. f_equal. lia.
  - simpl. rewrite IH. unfold produce. simpl. rewrite Hd.
    assert ((owner f =? 0) = false) as -> by lia. simpl.
    unfold set_cyborgs. simpl. f_equal. lia.
Qed.

Lemma iter_produce_neutral (k : nat) (f : Factory) :
  owner f = 0 -> production_disabled f = 0 -> Nat.iter k produce f = f.
Proof.
  intros Ho Hd. induction k as [|k IH]; [done|].
  simpl. rewrite IH. unfold produce. rewrite Ho, Hd. done.
Qed.

(** X21.  A factory that is not disabled and that no troop or bomb in
    flight is headed for only produces: after [k] calls of [update], which
    all return, a player's factory holds [k] times its production rate more
    cyborgs and is otherwise the same, and a neutral factory is unchanged. *)
Theorem undisturbed_factory_production (k : nat) (i : nat) (g : Game) (f : Factory) :
  factories g !! i = Some f ->
  quiet_at i g ->
  production_disabled f = 0 ->
  exists g', updates k g = (inr tt, g')
    /\ factories g' !! i =
         Some (if decide (owner f = 0) then f
               else set_cyborgs (cyborgs f + Z.of_nat k * production f) f).
Proof.
  intros Hf Hq Hd.
  destruct (updates_quiet k i g f Hf Hq) as (g' & Hu & Hf' & _).
  exists g'. split; [done|]. rewrite Hf'. f_equal.
  destruct (decide (owner f = 0)) as [Ho|Ho].
  - by apply iter_produce_neutral.
  - by apply iter_produce_enabled.
Qed.

Lemma undisturbed_factory_production_witness :
  exists g',
    updates 4 (mkGame [mkFactory 1 12 2 0; mkFactory 0 8 0 0] [mkTroop 1 3 0 1 9]
                      [] ∅ counting_rng) = (inr tt, g')
    /\ factories g' !! 0%nat =
         Some (if decide (owner (mkFactory 1 12 2 0) = 0) then mkFactory 1 12 2 0
               else set_cyborgs (cyborgs (mkFactory 1 12 2 0)
                                 + Z.of_nat 4 * production (mkFactory 1 12 2 0))
                                (mkFactory 1 12 2 0)).
Proof.
  apply (undisturbed_factory_production 4 0
           (mkGame [mkFactory 1 12 2 0; mkFactory 0 8 0 0] [mkTroop 1 3 0 1 9]
                   [] ∅ counting_rng) (mkFactory 1 12 2 0)).
  - reflexivity.
  - split; repeat constructor.
  - reflexivity.
Defined.

(** ** Sequences of calls *)

Lemma run_command_same_board (c : Command) (g : Game) :
  same_board g (snd (run_command c g)).
Proof.
  destruct c as [o n src dst|o src dst|]; simpl.
  - destruct (send_troop o n src dst g) as [res g'] eqn:E.
    by apply send_troop_frame in E.
  - destruct (send_bomb o src dst g) as [res g'] eqn:E.
    by apply send_bomb_frame in E.
  - destruct (update g) as [res g'] eqn:E.
    by apply update_frame in E as (_ & Hs & _).
Qed.

Lemma run_commands_same_board (cs : list Command) (g : Game) :
  same_board g (run_commands cs g).
Proof.
  revert g. induction cs as [|c cs IH]; intros g; simpl.
  - apply same_board_refl.
  - eapply same_board_trans; [apply run_command_same_board|apply IH].
Qed.

(** X13.  The board never changes: after any sequence of [send_troop],
    [send_bomb] and [update] calls, by any owner and whether they returned
    or raised, the distance table and the number of factories are those of
    the game the sequence started from, hence those of the construction. *)
Theorem run_commands_board_fixed (cs : list Command) (g : Game) :
  distances (run_commands cs g) = distances g
  /\ length (factories (run_commands cs g)) = length (factories g).
Proof. apply run_commands_same_board. Qed.

Lemma run_command_flight_times (c : Command) (g : Game) :
  flight_times_ok g -> flight_times_ok (snd (run_command c g)).
Proof.
  intros [Hd Ht]. destruct c as [o n src dst|o src dst|]; simpl.
  - destruct (send_troop_outcome o n src dst g) as [[e ->]|(i & f & Hf & ->)];
      [done|].
    split; simpl; [done|]. apply Forall_app. split; [done|].
    apply Forall_singleton. simpl. by apply distance_get_range.
  - destruct (send_bomb_outcome o src dst g) as [[e ->]| ->]; done.
  - destruct (update g) as [res g'] eqn:Hu. simpl.
    apply update_frame in Hu as (Ht' & [Hd' _] & _). split.
    + by rewrite Hd'.
    + rewrite Ht'. apply Forall_forall. intros t Hin.
      apply list_elem_of_filter in Hin as [Hne Hin].
      apply list_elem_of_fmap in Hin as (t0 & -> & Hin0).
      rewrite Forall_forall in Ht. specialize (Ht t0 Hin0). simpl in *. lia.
Qed.

Lemma run_commands_flight_times (cs : list Command) (g : Game) :
  flight_times_ok g -> flight_times_ok (run_commands cs g).
Proof.
  revert g. induction cs as [|c cs IH]; intros g Hg; simpl; [done|].
  by apply IH, run_command_flight_times.
Qed.

Lemma Game_init_flight_times (fuel : nat) (n l : Z) (r : Rng)
    (links : gset (Z * Z)) (g : Game) :
  Game_init fuel n l r = (inr links, g) -> flight_times_ok g.
Proof.
  intros Hinit. split.
  - intros a b x Hx.
    by destruct (Game_init_links_ok fuel n l r _ g Hinit a b x Hx).
  - apply Game_init_ok in Hinit as [_ ->]. constructor.
Qed.

(** X14.  After a construction that returned and any sequence of commands
    and turns, by any owner and whether they returned or raised, every
    troop in flight has a travel time between 1 and 20. *)
Theorem troop_travel_time_range (fuel : nat) (n l : Z) (r : Rng)
    (links : gset (Z * Z)) (g0 : Game) (cs : list Command) (t : Troop) :
  Game_init fuel n l r = (inr links, g0) ->
  t ∈ troops (run_commands cs g0) ->
  1 <= travel_time t <= 20.
Proof.
  intros Hinit Hin.
  destruct (run_commands_flight_times cs g0 (Game_init_flight_times _ _ _ _ _ _ Hinit))
    as [_ Ht].
  rewrite Forall_forall in Ht. by apply Ht.
Qed.

Lemma run_command_attr_ok (c : Command) (g : Game) :
  Forall attr_ok (factories g) -> Forall attr_ok (factories (snd (run_command c g))).
Proof.
  intros HF. destruct c as [o n src dst|o src dst|]; simpl.
  - destruct (send_troop_outcome o n src dst g) as [[e ->]|(i & f & Hf & ->)];
      [done|]. simpl.
    apply Forall_insert; [done|]. apply (Forall_lookup_1 _ _ _ _ HF Hf).
  - destruct (send_bomb_outcome o src dst g) as [[e ->]| ->]; done.
  - destruct (update g) as [res g'] eqn:Hu. by eapply update_attr_ok.
Qed.

Lemma run_commands_attr_ok (cs : list Command) (g : Game) :
  Forall attr_ok (factories g) -> Forall attr_ok (factories (run_commands cs g)).
Proof.
  revert g. induction cs as [|c cs IH]; intros g Hg; simpl; [done|].
  by apply IH, run_command_attr_ok.
Qed.

(** X15.  After a construction that returned and any sequence of commands
    and turns, by any owner and whether they returned or raised, every
    factory has a production rate between 0 and 3 and a production-disabled
    counter between 0 and 5. *)
Theorem factory_ranges (fuel : nat) (n l : Z) (r : Rng)
    (links : gset (Z * Z)) (g0 : Game) (cs : list Command) (f : Factory) :
  Game_init fuel n l r = (inr links, g0) ->
  f ∈ factories (run_commands cs g0) ->
  0 <= production f <= 3 /\ 0 <= production_disabled f <= 5.
Proof.
  intros Hinit Hin.
  pose proof (run_commands_attr_ok cs g0 (Game_init_attr_ok _ _ _ _ _ _ Hinit)) as HF.
  rewrite Forall_forall in HF. by apply HF.
Qed.

(** X18.  Distances are stored for non-negative positions only.  After a
    construction that returned and any sequence of commands and turns, a
    pair with a negative component is at the fallback distance 20: a command
    that names a factory by one of Python's negative indices never gets a
    stored travel time. *)
Theorem negative_index_distance (fuel : nat) (n l : Z) (r : Rng)
    (links : gset (Z * Z)) (g0 : Game) (cs : list Command) (a b : Z) :
  Game_init fuel n l r = (inr links, g0) ->
  a < 0 \/ b < 0 ->
  distance_get (distances (run_commands cs g0)) a b = 20.
Proof.
  intros Hinit Hneg.
  destruct (run_commands_same_board cs g0) as [Hd _].
  unfold distance_get. rewrite Hd.
  destruct (distances g0 !! (a, b)) as [x|] eqn:E; [|done].
  destruct (Game_init_links_ok fuel n l r _ g0 Hinit a b x E) as (_ & _ & _ & Ha & Hb).
  lia.
Qed.

Lemma troop_travel_time_range_witness :
  1 <= travel_time (mkTroop 0 3 2 0 7) <= 20.
Proof.
  apply (troop_travel_time_range 100 3 1 counting_rng
           (match fst (Game_init 100 3 1 counting_rng) with
            | inr l => l | inl _ => ∅ end)
           (snd (Game_init 100 3 1 counting_rng))
           [SendTroop 0 3 2 0; SendTroop 1 5 0 2; Update]).
  - vm_compute. reflexivity.
  - vm_compute. apply list_elem_of_here.
Defined.

Lemma factory_ranges_witness :
  0 <= production (mkFactory 1 26 3 0) <= 3
  /\ 0 <= production_disabled (mkFactory 1 26 3 0) <= 5.
Proof.
  apply (factory_ranges 100 3 1 counting_rng
           (match fst (Game_init 100 3 1 counting_rng) with
            | inr l => l | inl _ => ∅ end)
           (snd (Game_init 100 3 1 counting_rng))
           ([SendBomb 1 0 2] ++ replicate 8 Update
            ++ [SendTroop 1 30 0 2] ++ replicate 8 Update)).
  - vm_compute. reflexivity.
  - vm_compute. do 2 apply list_elem_of_further. apply list_elem_of_here.
Defined.

Lemma negative_index_distance_witness :
  distance_get
    (distances (run_commands [SendTroop 1 5 (-3) 2; Update]
                             (snd (Game_init 100 3 1 counting_rng))))
    (-3) 2 = 20.
Proof.
  apply (negative_index_distance 100 3 1 counting_rng
           (match fst (Game_init 100 3 1 counting_rng) with
            | inr l => l | inl _ => ∅ end)).
  - vm_compute. reflexivity.
  - left. lia.
Defined.

(** ** Neutral factories under any sequence of calls *)

Lemma aims_at_index (len i : nat) (d : Z) (j : nat) :
  py_index len d = Some j -> aims_at len i d = bool_decide (j = i).
Proof.
  intros H. unfold aims_at. rewrite H.
  destruct (Nat.eqb_spec j i).
  - by rewrite bool_decide_eq_true_2.
  - by rewrite bool_decide_eq_false_2.
Qed.

Lemma resolve_battle_at (i : nat) (d : Z) (ts : list Troop) (g : Game)
    (res : exn + unit) (g' : Game) :
  resolve_battle d ts g = (res, g') ->
  factories g' !! i = factories g !! i
  \/ exists f f',
       aims_at (length (factories g)) i d = true
       /\ factories g !! i = Some f /\ factories g' !! i = Some f'
       /\ production_disabled f' = production_disabled f
       /\ ((owner f' = owner f /\ production f' = production f)
           \/ owner f' ∈ map troop_owner ts).
Proof.
  intros H.
  destruct (resolve_battle_outcome d ts g)
    as [(e0 & He & _)|(j & f & f' & r & Hj & Hf & He & Hpd & Hop)];
    rewrite He in H; inversion H; subst; [by left|].
  simpl. destruct (decide (j = i)) as [->|Hne].
  - right. exists f, f'. rewrite (aims_at_index _ _ _ _ Hj), bool_decide_eq_true_2 by done.
    repeat split; try done.
    apply list_lookup_insert_eq. by eapply lookup_lt_Some.
  - left. by apply list_lookup_insert_ne.
Qed.

Lemma resolve_battle_rate (i : nat) (d : Z) (ts : list Troop) (g : Game)
    (res : exn + unit) (g' : Game) :
  neutral_rate_zero i g ->
  (aims_at (length (factories g)) i d = true ->
   Forall (fun t => troop_owner t <> 0) ts) ->
  resolve_battle d ts g = (res, g') ->
  neutral_rate_zero i g'.
Proof.
  intros Hr Hts H f1 Hf1 Ho1.
  destruct (resolve_battle_at i d ts g res g' H)
    as [Heq|(f & f' & Haim & Hf & Hf' & _ & Hop)].
  - rewrite Heq in Hf1. by apply (Hr f1).
  - rewrite Hf' in Hf1. inversion Hf1; subst f1.
    destruct Hop as [[Ho Hp]|Hin].
    + rewrite Hp. apply (Hr f Hf). congruence.
    + specialize (Hts Haim). rewrite Forall_forall in Hts.
      apply list_elem_of_fmap in Hin as (t & Ht & Hin).
      exfalso. apply (Hts t Hin). congruence.
Qed.

Lemma resolve_battle_counter (i : nat) (d : Z) (ts : list Troop) (g : Game)
    (res : exn + unit) (g' : Game) :
  not_disabled i g -> resolve_battle d ts g = (res, g') -> not_disabled i g'.
Proof.
  intros Hr H f1 Hf1.
  destruct (resolve_battle_at i d ts g res g' H)
    as [Heq|(f & f' & _ & Hf & Hf' & Hpd & _)].
  - rewrite Heq in Hf1. by apply (Hr f1).
  - rewrite Hf' in Hf1. inversion Hf1; subst f1. rewrite Hpd. by apply (Hr f).
Qed.

Lemma resolve_battles_rate (i : nat) (battles : list (Z * list Troop)) (g : Game)
    (res : exn + unit) (g' : Game) :
  neutral_rate_zero i g ->
  Forall (fun p => aims_at (length (factories g)) i (fst p) = true ->
                   Forall (fun t => troop_owner t <> 0) (snd p)) battles ->
  resolve_battles battles g = (res, g') ->
  neutral_rate_zero i g'.
Proof.
  revert g. induction battles as [|[d ts] battles IH]; intros g Hr HF; simpl.
  - by intros [= <- <-].
  - apply Forall_cons in HF as [Hts HF]. simpl in Hts. unfold bind.
    destruct (resolve_battle d ts g) as [[e|[]] g1] eqn:E.
    + intros [= <- <-]. by eapply resolve_battle_rate.
    + apply IH.
      * by eapply resolve_battle_rate.
      * apply resolve_battle_frame in E as (_ & _ & _ & Hl). by rewrite Hl.
Qed.

Lemma resolve_battles_counter (i : nat) (battles : list (Z * list Troop)) (g : Game)
    (res : exn + unit) (g' : Game) :
  not_disabled i g -> resolve_battles battles g = (res, g') -> not_disabled i g'.
Proof.
  revert g. induction battles as [|[d ts] battles IH]; intros g Hr; simpl.
  - by intros [= <- <-].
  - unfold bind. destruct (resolve_battle d ts g) as [[e|[]] g1] eqn:E.
    + intros [= <- <-]. by eapply resolve_battle_counter.
    + apply IH. by eapply resolve_battle_counter.
Qed.

Lemma update_troops_rate (i : nat) (g : Game) (res : exn + unit) (g' : Game) :
  rate_safe_at i g -> update_troops g = (res, g') -> rate_safe_at i g'.
Proof.
  intros [Hr Ht] Hu.
  pose proof (update_troops_frame g res g' Hu) as (Ht' & _ & _ & Hl).
  rewrite Forall_forall in Ht.
  split.
  - revert Hu. unfold update_troops, bind, get, modify.
    apply resolve_battles_rate; [done|]. simpl.
    apply Forall_forall. intros [d grp] Hin Haim. simpl in *.
    destruct (move_troops_spec (troops g)) as (_ & _ & _ & Hgroups).
    destruct (Hgroups d grp Hin) as [-> _].
    apply Forall_forall. intros t Hta Ho.
    unfold arrivals in Hta. apply list_elem_of_filter in Hta as [Hd Hta].
    apply list_elem_of_filter in Hta as [_ Hta].
    apply list_elem_of_fmap in Hta as (t0 & -> & Hin0).
    simpl in *. specialize (Ht t0 Hin0 Ho). rewrite Hd in Ht. congruence.
  - rewrite Ht', Hl. apply Forall_forall. intros t Hin Ho.
    apply list_elem_of_filter in Hin as [_ Hin].
    apply list_elem_of_fmap in Hin as (t0 & -> & Hin0). by apply (Ht t0 Hin0).
Qed.

Lemma update_troops_counter (i : nat) (g : Game) (res : exn + unit) (g' : Game) :
  counter_safe_at i g -> update_troops g = (res, g') -> counter_safe_at i g'.
Proof.
  intros [Hr Hb] Hu.
  pose proof (update_troops_frame g res g' Hu) as (_ & Hb' & _ & Hl).
  split.
  - revert Hu. unfold update_troops, bind, get, modify.
    by apply resolve_battles_counter.
  - by rewrite Hb', Hl.
Qed.

Lemma update_bombs_rate (i : nat) (g : Game) (res : exn + unit) (g' : Game) :
  rate_safe_at i g -> update_bombs g = (res, g') -> rate_safe_at i g'.
Proof.
  intros [Hr Ht] Hu. apply update_bombs_rates in Hu as [Ht' HF].
  split.
  - intros f' Hf' Ho'.
    destruct (Forall2_lookup_r _ _ _ _ _ HF Hf') as (f & Hf & Ho & Hp).
    rewrite Hp. apply (Hr f Hf). congruence.
  - rewrite Ht', <- (Forall2_length _ _ _ HF). done.
Qed.

Lemma update_bombs_loop_counter (i len : nat) (snapshot kept : list Bomb) (g : Game)
    (res : exn + unit) (g' : Game) :
  length (factories g) = len ->
  not_disabled i g ->
  Forall (fun b => aims_at len i (bomb_destination_factory b) = false) kept ->
  Forall (fun b => aims_at len i (bomb_destination_factory b) = false) snapshot ->
  Forall (fun b => aims_at len i (bomb_destination_factory b) = false) (bombs g) ->
  update_bombs_loop kept snapshot g = (res, g') ->
  not_disabled i g'
  /\ Forall (fun b => aims_at len i (bomb_destination_factory b) = false) (bombs g').
Proof.
  revert kept g. induction snapshot as [|b rest IH]; intros kept g Hl Hn Hk Hs Hb.
  - simpl. by intros [= <- <-].
  - apply Forall_cons in Hs as [Hb0 Hs].
    cbn [update_bombs_loop]. unfold bind at 1. unfold modify at 1.
    assert (Forall (fun b => aims_at len i (bomb_destination_factory b) = false)
                   (kept ++ move_bomb b :: rest)) as Hall.
    { apply Forall_app. split; [done|]. by constructor. }
    destruct (bomb_travel_time (move_bomb b) =? 0).
    + unfold bind at 1.
      destruct (resolve_bomb_outcome (move_bomb b)
                  (set_bombs (kept ++ move_bomb b :: rest) g))
        as [[_ ->]|(j & f & Hj & Hf & ->)].
      * by intros [= <- <-].
      * unfold bind at 1. unfold modify at 1. simpl in Hj, Hf.
        apply IH; simpl; try done.
        -- by rewrite length_insert.
        -- intros f1 Hf1. apply (Hn f1). rewrite <- Hf1. symmetry.
           apply list_lookup_insert_ne. intros ->.
           rewrite Hl in Hj. rewrite (aims_at_index _ _ _ _ Hj) in Hb0.
           by rewrite bool_decide_eq_true_2 in Hb0.
        -- apply Forall_app. by split.
    + apply IH; simpl; try done. apply Forall_app. split; [done|].
      by apply Forall_singleton.
Qed.

Lemma update_bombs_counter (i : nat) (g : Game) (res : exn + unit) (g' : Game) :
  counter_safe_at i g -> update_bombs g = (res, g') -> counter_safe_at i g'.
Proof.
  intros [Hr Hb] Hu.
  pose proof (update_bombs_frame g res g' Hu) as (_ & [_ Hl] & _).
  revert Hu. unfold update_bombs, bind, get. intros Hu.
  apply (update_bombs_loop_counter i (length (factories g))) in Hu
    as [Hn' Hb']; try done.
  split; [done|]. by rewrite Hl.
Qed.

Lemma produce_all_safe (i : nat) (g : Game) :
  (rate_safe_at i g -> rate_safe_at i (snd (produce_all g)))
  /\ (counter_safe_at i g -> counter_safe_at i (snd (produce_all g))).
Proof.
  unfold produce_all, modify, rate_safe_at, counter_safe_at.
  cbn [snd factories troops bombs set_factories].
  rewrite length_map.
  change (map produce (factories g)) with (produce <$> factories g).
  split; intros [Hr Hx]; (split; [|done]).
  - intros f' Hf' Ho'. simpl in Hf'. rewrite list_lookup_fmap in Hf'.
    destruct (factories g !! i) as [f|] eqn:Hf; [|done].
    inversion Hf'; subst f'. destruct (produce_same_rate f) as [Ho Hp].
    rewrite Hp. apply (Hr f Hf). congruence.
  - intros f' Hf'. simpl in Hf'. rewrite list_lookup_fmap in Hf'.
    destruct (factories g !! i) as [f|] eqn:Hf; [|done].
    inversion Hf'; subst f'. specialize (Hr f Hf).
    unfold produce. rewrite Hr.
    destruct (negb (owner f =? 0) && (0 =? 0)); simpl; done.
Qed.

Lemma update_rate_safe (i : nat) (g : Game) (res : exn + unit) (g' : Game) :
  rate_safe_at i g -> update g = (res, g') -> rate_safe_at i g'.
Proof.
  intros H. unfold update. unfold bind at 1.
  destruct (update_troops g) as [[e|[]] g1] eqn:E1;
    apply (update_troops_rate i g _ g1 H) in E1.
  { by intros [= <- <-]. }
  unfold bind at 1.
  destruct (update_bombs g1) as [[e|[]] g2] eqn:E2;
    apply (update_bombs_rate i g1 _ g2 E1) in E2.
  { by intros [= <- <-]. }
  intros Hp. replace g' with (snd (produce_all g2)) by (by rewrite Hp).
  by apply produce_all_safe.
Qed.

Lemma update_counter_safe (i : nat) (g : Game) (res : exn + unit) (g' : Game) :
  counter_safe_at i g -> update g = (res, g') -> counter_safe_at i g'.
Proof.
  intros H. unfold update. unfold bind at 1.
  destruct (update_troops g) as [[e|[]] g1] eqn:E1;
    apply (update_troops_counter i g _ g1 H) in E1.
  { by intros [= <- <-]. }
  unfold bind at 1.
  destruct (update_bombs g1) as [[e|[]] g2] eqn:E2;
    apply (update_bombs_counter i g1 _ g2 E1) in E2.
  { by intros [= <- <-]. }
  intros Hp. replace g' with (snd (produce_all g2)) by (by rewrite Hp).
  by apply produce_all_safe.
Qed.

Lemma run_command_rate_safe (i : nat) (c : Command) (g : Game) :
  rate_safe_at i g ->
  neutral_troop_sent_to i [c] g = false ->
  rate_safe_at i (snd (run_command c g)).
Proof.
  intros [Hr Ht] Hc. destruct c as [o n src dst|o src dst|]; simpl in *.
  - rewrite orb_false_r in Hc. unfold accepted in Hc. simpl in Hc.
    destruct (send_troop_outcome o n src dst g) as [[e He]|(j & f & Hf & He)];
      rewrite He in *; simpl in *; [done|].
    split.
    + intros f1 Hf1 Ho1. simpl in Hf1. destruct (decide (j = i)) as [->|Hne].
      * rewrite list_lookup_insert_eq in Hf1 by (by eapply lookup_lt_Some).
        inversion Hf1; subst f1. simpl in *. by apply (Hr f).
      * rewrite list_lookup_insert_ne in Hf1 by done. by apply (Hr f1).
    + simpl. rewrite length_insert. apply Forall_app. split; [done|].
      apply Forall_singleton. simpl. intros ->. simpl in Hc. done.
  - destruct (send_bomb_outcome o src dst g) as [[e ->]| ->]; done.
  - destruct (update g) as [res g'] eqn:Hu. by eapply update_rate_safe.
Qed.

Lemma run_command_counter_safe (i : nat) (c : Command) (g : Game) :
  counter_safe_at i g ->
  bomb_sent_to i [c] g = false ->
  counter_safe_at i (snd (run_command c g)).
Proof.
  intros [Hr Hb] Hc. destruct c as [o n src dst|o src dst|]; simpl in *.
  - destruct (send_troop_outcome o n src dst g) as [[e ->]|(j & f & Hf & ->)];
      simpl; [done|].
    split.
    + intros f1 Hf1. simpl in Hf1. destruct (decide (j = i)) as [->|Hne].
      * rewrite list_lookup_insert_eq in Hf1 by (by eapply lookup_lt_Some).
        inversion Hf1; subst f1. simpl. by apply (Hr f).
      * rewrite list_lookup_insert_ne in Hf1 by done. by apply (Hr f1).
    + simpl. by rewrite length_insert.
  - rewrite orb_false_r in Hc. unfold accepted in Hc. simpl in Hc.
    destruct (send_bomb_outcome o src dst g) as [[e He]|He];
      rewrite He in *; simpl in *; [done|].
    split; [done|]. apply Forall_app. split; [done|].
    by apply Forall_singleton.
  - destruct (update g) as [res g'] eqn:Hu. by eapply update_counter_safe.
Qed.

Lemma run_commands_rate_safe (i : nat) (cs : list Command) (g : Game) :
  rate_safe_at i g ->
  neutral_troop_sent_to i cs g = false ->
  rate_safe_at i (run_commands cs g).
Proof.
  revert g. induction cs as [|c cs IH]; intros g Hg Hc; [done|].
  cbn [neutral_troop_sent_to] in Hc. apply orb_false_iff in Hc as [Hc1 Hc2].
  cbn [run_commands]. apply IH; [|done].
  apply run_command_rate_safe; [done|].
  cbn [neutral_troop_sent_to]. by rewrite Hc1.
Qed.

Lemma run_commands_counter_safe (i : nat) (cs : list Command) (g : Game) :
  counter_safe_at i g ->
  bomb_sent_to i cs g = false ->
  counter_safe_at i (run_commands cs g).
Proof.
  revert g. induction cs as [|c cs IH]; intros g Hg Hc; [done|].
  cbn [bomb_sent_to] in Hc. apply orb_false_iff in Hc as [Hc1 Hc2].
  cbn [run_commands]. apply IH; [|done].
  apply run_command_counter_safe; [done|].
  cbn [bomb_sent_to]. by rewrite Hc1.
Qed.

Lemma Game_init_safe (fuel : nat) (n l : Z) (r : Rng)
    (links : gset (Z * Z)) (g : Game) (i : nat) :
  Game_init fuel n l r = (inr links, g) ->
  rate_safe_at i g /\ counter_safe_at i g.
Proof.
  intros Hinit.
  assert (bombs g = []) as Hb.
  { revert Hinit. unfold Game_init. unfold bind at 1.
    destruct (initialize_factories n (empty_game r)) as [[e|[]] g1] eqn:E1; [done|].
    apply initialize_factories_frame in E1 as (_ & Hb1 & _).
    unfold initialize_distances. intros H.
    apply initialize_distances_loop_frame in H as (_ & _ & ->). done. }
  apply Game_init_ok in Hinit as [HF Ht].
  rewrite Forall_forall in HF.
  split; split.
  - intros f Hf. apply (HF f). by eapply list_elem_of_lookup_2.
  - rewrite Ht. constructor.
  - intros f Hf. apply (HF f). by eapply list_elem_of_lookup_2.
  - rewrite Hb. constructor.
Qed.

(** C2, amended.  After a construction that returned and any sequence of
    commands and turns, made by any owner and whether they returned or
    raised: a neutral factory has production 0 unless an accepted troop
    command in the name of owner 0 was headed for it, and a factory, neutral
    or not, has its production-disabled counter at 0 unless an accepted bomb
    command was headed for it. *)
Theorem neutral_factories_invariant (fuel : nat) (n l : Z) (r : Rng)
    (links : gset (Z * Z)) (g0 : Game) (cs : list Command) (i : nat) (f : Factory) :
  Game_init fuel n l r = (inr links, g0) ->
  factories (run_commands cs g0) !! i = Some f ->
  (neutral_troop_sent_to i cs g0 = false -> owner f = 0 -> production f = 0)
  /\ (bomb_sent_to i cs g0 = false -> production_disabled f = 0).
Proof.
  intros Hinit Hf. destruct (Game_init_safe _ _ _ _ _ _ i Hinit) as [Hr Hc].
  split.
  - intros Hn. by apply (run_commands_rate_safe i cs g0 Hr Hn).
  - intros Hn. by apply (run_commands_counter_safe i cs g0 Hc Hn).
Qed.

(** C2 as stated fails: a bomb that lands on a neutral factory sets its
    counter to 5.  On a three-factory board player 1 bombs the neutral
    factory 2, eight turns away; after eight calls of [update] that factory
    is still neutral and its counter is 4. *)
Lemma bombed_neutral_factory_is_disabled :
  ~ (forall (fuel : nat) (n l : Z) (r : Rng) (links : gset (Z * Z)) (g0 : Game)
            (cs : list Command) (f : Factory),
       Game_init fuel n l r = (inr links, g0) ->
       f ∈ factories (run_commands cs g0) ->
       owner f = 0 ->
       production f = 0 /\ production_disabled f = 0).
Proof.
  intros H.
  destruct (H 100%nat 3 1 counting_rng
              (match fst (Game_init 100 3 1 counting_rng) with
               | inr l => l | inl _ => ∅ end)
              (snd (Game_init 100 3 1 counting_rng))
              (SendBomb 1 0 2 :: replicate 8 Update)
              (mkFactory 0 7 0 4)) as [_ Hpd].
  - vm_compute. reflexivity.
  - vm_compute. do 2 apply list_elem_of_further. apply list_elem_of_here.
  - reflexivity.
  - discriminate Hpd.
Qed.

(** The other way the statement fails: the ownership check of [send_troop]
    accepts owner 0 at a neutral source.  On the same board the neutral
    factory 2 sends 100 cyborgs to factory 0; eight turns later factory 0
    is conquered in the name of owner 0 and is a neutral factory with the
    freshly drawn production rate 3. *)
Lemma neutral_conquest_has_production :
  ~ (forall (fuel : nat) (n l : Z) (r : Rng) (links : gset (Z * Z)) (g0 : Game)
            (cs : list Command) (f : Factory),
       Game_init fuel n l r = (inr links, g0) ->
       f ∈ factories (run_commands cs g0) ->
       owner f = 0 ->
       production f = 0).
Proof.
  intros H.
  assert (production (mkFactory 0 64 3 0) = 0) as Hp; [|discriminate Hp].
  apply (H 100%nat 3 1 counting_rng
           (match fst (Game_init 100 3 1 counting_rng) with
            | inr l => l | inl _ => ∅ end)
           (snd (Game_init 100 3 1 counting_rng))
           (SendTroop 0 100 2 0 :: replicate 8 Update)).
  - vm_compute. reflexivity.
  - vm_compute. apply list_elem_of_here.
  - reflexivity.
Qed.

(** A four-factory board on which a bomb lands on the neutral factory 2 and
    a troop of owner 0 conquers factory 1, while the neutral factory 3, which
    only repels a troop of player 2, keeps rate and counter at 0. *)
Lemma neutral_factories_invariant_witness :
  neutral_troop_sent_to 3
    ([SendBomb 2 1 2; SendTroop 0 50 2 1; SendTroop 2 5 1 3] ++ replicate 12 Update)
    (snd (Game_init 100 4 1 counting_rng)) = false
  /\ bomb_sent_to 3
       ([SendBomb 2 1 2; SendTroop 0 50 2 1; SendTroop 2 5 1 3] ++ replicate 12 Update)
       (snd (Game_init 100 4 1 counting_rng)) = false
  /\ production (mkFactory 0 13 0 0) = 0
  /\ production_disabled (mkFactory 0 13 0 0) = 0.
Proof.
  destruct (neutral_factories_invariant 100 4 1 counting_rng
              (match fst (Game_init 100 4 1 counting_rng) with
               | inr l => l | inl _ => ∅ end)
              (snd (Game_init 100 4 1 counting_rng))
              ([SendBomb 2 1 2; SendTroop 0 50 2 1; SendTroop 2 5 1 3]
               ++ replicate 12 Update)
              3%nat (mkFactory 0 13 0 0)) as [Hp Hd].
  - vm_compute. reflexivity.
  - vm_compute. reflexivity.
  - split; [vm_compute; reflexivity|]. split; [vm_compute; reflexivity|].
    split.
    + apply Hp; [vm_compute; reflexivity|reflexivity].
    + apply Hd. vm_compute. reflexivity.
Defined.
